(** * Verification of the clone-voice orchestrator and the cleanup-voices sweeper

    Shallow embedding of the Supabase edge functions of vox-mimic:
    - [supabase/functions/clone-voice/index.ts] (the second, current revision:
      [handleElevenLabsError], [retryWithBackoff] and the [serve] handler);
    - the first revision of [serve] (lines 1-326 of the same file);
    - the cleanup-voices edge function (appended to
      [src/components/VoiceProjectCard.tsx] in the sources), and the
      [VoiceProjectCard] component of that file;
    - the [validate_voice_parameters] trigger of the migrations and the
      column constraints of the voice parameters (src/unnamed/part_004);
    - the callers that start a run: [GenerateVoiceDialog.handleGenerate]
      and [CreateProjectDialog.handleSubmit].

    Effects are modelled the way JavaScript has them: a handler runs in a
    state monad whose exceptions keep the state reached at the throw (a
    [catch] block sees every database write and every remote call made
    before the throw).  Network and database answers are oracles of an
    environment record; every remote call and every database write is
    recorded in a trace. *)

From Stdlib Require Import String Ascii List Bool ZArith QArith Lia Sorted Permutation.
Import ListNotations.
Close Scope Q_scope.
Open Scope string_scope.
Open Scope nat_scope.
Open Scope list_scope.

(* ------------------------------------------------------------------ *)
(** ** JavaScript string primitives *)

(** [s.includes(p)] *)
Fixpoint includes (s p : string) : bool :=
  if prefix p s then true
  else match s with
       | EmptyString => false
       | String _ s' => includes s' p
       end.

(** [s.startsWith(p)] *)
Definition startsWith (s p : string) : bool := prefix p s.

(** [toLowerCase] on the ASCII range. *)
Definition lower_ascii (c : ascii) : ascii :=
  let n := nat_of_ascii c in
  if (Nat.leb 65 n && Nat.leb n 90)%bool then ascii_of_nat (n + 32)%nat else c.

Fixpoint toLowerCase (s : string) : string :=
  match s with
  | EmptyString => EmptyString
  | String c s' => String (lower_ascii c) (toLowerCase s')
  end.

(** The whitespace removed by [String.prototype.trim] (ASCII part). *)
Definition is_ws (c : ascii) : bool :=
  match nat_of_ascii c with
  | 9 | 10 | 11 | 12 | 13 | 32 => true
  | _ => false
  end.

Fixpoint trim_start (s : string) : string :=
  match s with
  | EmptyString => EmptyString
  | String c s' => if is_ws c then trim_start s' else s
  end.

Fixpoint rev_string (s : string) : string :=
  match s with
  | EmptyString => EmptyString
  | String c s' => rev_string s' ++ String c EmptyString
  end.

(** [s.trim()] *)
Definition trim (s : string) : string :=
  rev_string (trim_start (rev_string (trim_start s))).

(** JavaScript truthiness of a [string | null | undefined] value. *)
Definition truthy (o : option string) : bool :=
  match o with
  | Some s => negb (String.eqb s "")
  | None => false
  end.

(* ------------------------------------------------------------------ *)
(** ** Error objects and the HTTP status mapping of the catch block *)

(** A thrown [Error]; the handler only reads its [message]. *)
Record Error := mkError { message : string }.

(** [catch (error)] block, lines 731-741 (identical to lines 273-283 of
    the first revision). *)
Definition status_code_of (msg : string) : Z :=
  if includes msg "quota" || includes msg "limit" then 402%Z
  else if includes msg "invalid" || includes msg "format" then 422%Z
  else if includes msg "rate limit" then 429%Z
  else if includes msg "API key" then 401%Z
  else 500%Z.

(** [handleElevenLabsError]: the message of the [Error] it throws, from the
    HTTP status of the provider response and the message extracted from
    its body. *)
Definition handleElevenLabsError_message (statusCode : Z)
  (errorMessage operation : string) : string :=
  if Z.eqb statusCode 401%Z then
    "ElevenLabs API key is invalid or expired. Please update your API key."
  else if Z.eqb statusCode 402%Z then
    "ElevenLabs quota exceeded. Please check your subscription or wait until your quota resets."
  else if Z.eqb statusCode 422%Z then
    (if includes (toLowerCase errorMessage) "audio"
     then "Invalid audio format or corrupted audio files. Please re-record your voice samples."
     else "Invalid request data. Please check your voice settings and try again.")
  else if Z.eqb statusCode 429%Z then
    "Rate limit exceeded. Please wait a moment and try again."
  else if Z.eqb statusCode 500%Z || Z.eqb statusCode 502%Z || Z.eqb statusCode 503%Z then
    "ElevenLabs service is temporarily unavailable. Please try again in a few minutes."
  else if includes (toLowerCase errorMessage) "voice limit"
          || includes (toLowerCase errorMessage) "maximum" then
    "Voice limit reached on your ElevenLabs account. Please delete unused voices or upgrade your plan."
  else if includes (toLowerCase errorMessage) "format" then
    "Audio format not supported. Please ensure recordings are in MP3 format."
  else
    ("ElevenLabs " ++ operation ++ " failed: " ++ errorMessage)%string.

(* ------------------------------------------------------------------ *)
(** ** A state monad with JavaScript exceptions

    [M St A] runs on a state [St]; a throw keeps the state reached so far,
    which the enclosing [catch] then continues from. *)

Definition M (St A : Type) : Type := St -> St * (Error + A).

Definition ret {St A} (a : A) : M St A := fun s => (s, inr a).

Definition bind {St A B} (m : M St A) (k : A -> M St B) : M St B :=
  fun s => let (s', r) := m s in
           match r with
           | inl e => (s', inl e)
           | inr a => k a s'
           end.

Definition throw {St A} (e : Error) : M St A := fun s => (s, inl e).

(** [try { m } catch (error) { h(error) }] *)
Definition try_catch {St A} (m : M St A) (h : Error -> M St A) : M St A :=
  fun s => let (s', r) := m s in
           match r with
           | inl e => h e s'
           | inr a => (s', inr a)
           end.

Notation "x <- m ;; k" := (bind m (fun x => k))
  (at level 61, m at next level, right associativity).
Notation "m ;;; k" := (bind m (fun _ => k))
  (at level 61, right associativity).

(* ------------------------------------------------------------------ *)
(** ** [retryWithBackoff] (lines 385-409)

    [fn] is the retried closure; its argument is the number of the
    attempt, which only indexes the answer the outside world gives to that
    call.  [wait ms] is [await new Promise(resolve => setTimeout(resolve, ms))].
    The [for] loop runs [attempt] from 0 while [attempt < maxRetries]; the
    fuel is [maxRetries - attempt]. *)

Fixpoint retry_loop {St A} (wait : nat -> M St unit) (fn : nat -> M St A)
  (maxRetries initialDelay attempt fuel : nat) (lastError : option Error)
  : M St A :=
  match fuel with
  | O => throw (match lastError with
                | Some e => e
                | None => mkError "All retry attempts failed"
                end)
  | S fuel' =>
      try_catch (fn attempt) (fun error =>
        (if attempt <? maxRetries - 1
         then wait (initialDelay * 2 ^ attempt)
         else ret tt) ;;;
        retry_loop wait fn maxRetries initialDelay (S attempt) fuel' (Some error))
  end.

Definition retryWithBackoff {St A} (wait : nat -> M St unit) (fn : nat -> M St A)
  (maxRetries initialDelay : nat) : M St A :=
  retry_loop wait fn maxRetries initialDelay 0 maxRetries None.

(** An instrumented run of the executor: the state is the list of what
    happened (an invocation of the operation, or a wait), and the
    operation's [k]-th invocation answers [outcome k]. *)
Inductive RetryEvent := Invoke (attempt : nat) | Wait (ms : nat).

Definition log_retry (ev : RetryEvent) : M (list RetryEvent) unit :=
  fun tr => (tr ++ [ev], inr tt).

Definition of_result {St A} (r : Error + A) : M St A := fun s => (s, r).

Definition traced_op {A} (outcome : nat -> Error + A) (k : nat)
  : M (list RetryEvent) A :=
  log_retry (Invoke k) ;;; of_result (outcome k).

Definition traced_retry {A} (outcome : nat -> Error + A)
  (maxRetries initialDelay : nat) : list RetryEvent * (Error + A) :=
  retryWithBackoff (fun ms => log_retry (Wait ms)) (traced_op outcome)
    maxRetries initialDelay [].

(** The trace of attempts [a .. k-1] all failing, each followed by its
    back-off wait. *)
Definition failed_attempts (initialDelay a n : nat) : list RetryEvent :=
  flat_map (fun i => [Invoke i; Wait (initialDelay * 2 ^ i)]) (seq a n).

Definition is_err {A} (r : Error + A) : bool :=
  match r with inl _ => true | inr _ => false end.

(** The attempt numbers of the invocations recorded in a trace. *)
Definition invocations (tr : list RetryEvent) : list nat :=
  flat_map (fun ev => match ev with Invoke k => [k] | Wait _ => [] end) tr.

(** The provider rejecting the API key (HTTP 401), as
    [handleElevenLabsError] reports it. *)
Definition auth_failure : Error + unit :=
  inl (mkError (handleElevenLabsError_message 401 "invalid_api_key" "voice creation")).

(* ------------------------------------------------------------------ *)
(** ** Data model: the [voice_projects] and [voice_samples] rows *)

(** [voice_projects.status] (check constraint of the migrations). *)
Inductive Status :=
  draft | recording | analyzing | training | ready | generating | completed | failed.

(** A [voice_projects] row, restricted to the columns the edge functions
    read or write.  The voice parameters are [real] columns; they are
    only read and forwarded, so they are kept as rationals. *)
Record Project := mkProject {
  id : string;
  user_id : string;
  script_text : option string;
  voice_stability : option Q;
  voice_similarity_boost : option Q;
  voice_style : option Q;
  voice_speaker_boost : option bool;
  status : Status;
  elevenlabs_voice_id : option string;
  generated_audio_url : option string;
  last_generation_at : option Z;
  updated_at : Z
}.

(** A [voice_samples] row of the project. *)
Record Sample := mkSample { clip_number : Z; sample_url : string }.

(** The columns set by one [.update({...})] call; [None] leaves a column
    alone. *)
Record Update := mkUpdate {
  set_status : option Status;
  set_voice_id : option (option string);
  set_audio_url : option (option string)
}.

Definition upd_or {A} (o : option A) (old : A) : A :=
  match o with Some v => v | None => old end.

(** The row after an update; the [update_voice_projects_updated_at]
    trigger stamps [updated_at] with the current time. *)
Definition apply_update (now : Z) (u : Update) (p : Project) : Project :=
  mkProject (id p) (user_id p) (script_text p) (voice_stability p)
    (voice_similarity_boost p) (voice_style p) (voice_speaker_boost p)
    (upd_or (set_status u) (status p))
    (upd_or (set_voice_id u) (elevenlabs_voice_id p))
    (upd_or (set_audio_url u) (generated_audio_url p))
    (last_generation_at p) now.

(** [voice_settings] of the text-to-speech request body. *)
Record VoiceSettings := mkVoiceSettings {
  stability : Q;
  similarity_boost : Q;
  style : Q;
  use_speaker_boost : bool
}.

(** [a ?? b] *)
Definition nullish {A} (o : option A) (default : A) : A :=
  match o with Some v => v | None => default end.

(** Lines 589-594. *)
Definition voice_settings_of (project : Project) : VoiceSettings :=
  mkVoiceSettings
    (nullish (voice_stability project) (Qmake 1 2))
    (nullish (voice_similarity_boost project) (Qmake 3 4))
    (nullish (voice_style project) (Qmake 0 1))
    (nullish (voice_speaker_boost project) true).

(** [.order('clip_number')]: ascending, stable. *)
Fixpoint insert_by_clip (x : Sample) (l : list Sample) : list Sample :=
  match l with
  | [] => [x]
  | y :: l' => if Z.leb (clip_number x) (clip_number y) then x :: l
               else y :: insert_by_clip x l'
  end.

Fixpoint order_by_clip (l : list Sample) : list Sample :=
  match l with
  | [] => []
  | x :: l' => insert_by_clip x (order_by_clip l')
  end.

(** [!project.script_text || project.script_text.trim().length === 0] *)
Definition script_missing (o : option string) : bool :=
  match o with
  | None => true
  | Some t => String.eqb (trim t) ""
  end.

(* ------------------------------------------------------------------ *)
(** ** The outside world of one [clone-voice] request *)

(** The parsed request body: [req.json()] fails, or yields an object
    whose [projectId] may be missing. *)
Inductive Body := BodyInvalid (msg : string) | BodyJson (projectId : option string).

(** A sample download: the fetch is aborted or rejected (30 s timeout,
    network error), answers a non-2xx status, or yields a blob of a given
    size. *)
Inductive Download := DlAbort | DlHttpError (code : Z) | DlBlob (size : nat).

(** The body of a non-2xx provider answer, as [handleElevenLabsError]
    reads it.  [JsonMessage m]: [response.json()] succeeds and
    [errorData.detail?.message || errorData.message || JSON.stringify(errorData)]
    is [m].  [Unreadable e]: [response.json()] or that extraction throws
    (a body that is not JSON, or the JSON [null]); [json()] has already
    consumed the body, so the [response.text()] of the [catch] rejects
    too, with the runtime's [TypeError], whose message is [e], and that
    rejection leaves [handleElevenLabsError] in place of its own error. *)
Inductive ErrorBody := JsonMessage (m : string) | Unreadable (e : string).

(** A provider answer to one attempt: a 2xx answer and what the closure
    returns from it, an HTTP error with its body, or an exception thrown
    before any status is looked at: a rejected fetch (timeout abort,
    network), or a 2xx body whose [json()] or [blob()] rejects. *)
Inductive ProviderResp (A : Type) :=
  | RespOk (a : A)
  | RespHttpError (code : Z) (body : ErrorBody)
  | RespAbort (msg : string).
Arguments RespOk {A}. Arguments RespHttpError {A}. Arguments RespAbort {A}.

Record Env := mkEnv {
  request_body : Body;
  download : string -> Download;
  (** [addVoiceData.voice_id] answered to attempt [k] of [POST /voices/add] *)
  create_voice_resp : nat -> ProviderResp (option string);
  (** size of the audio blob answered to attempt [k] of text-to-speech *)
  tts_resp : nat -> ProviderResp nat;
  upload_error : option string;
  public_url : string -> string;
  now : Z
}.

(** What a request does outside its own memory: database writes and the
    calls to ElevenLabs and storage. *)
Inductive Event :=
  | EvDbUpdate (u : Update)
  | EvFetchSample (url : string)
  | EvCreateVoice (files : list nat)
  | EvTts (voice_id : string) (text : string) (settings : VoiceSettings)
  | EvWait (ms : nat)
  | EvUpload (fileName : string)
  | EvDeleteVoice (voice_id : string).

(** The row [voice_projects where id = projectId] ([id] is the primary
    key), the project's [voice_samples] rows, the trace, and the two
    [let] variables of the handler that its [catch] block reads. *)
Record OState := mkOState {
  db : option Project;
  samples_db : list Sample;
  trace : list Event;
  local_projectId : option string;
  local_voiceId : option string
}.

Definition init_state (row : option Project) (samples : list Sample) : OState :=
  mkOState row samples [] None None.

Definition add_events (s : OState) (evs : list Event) : OState :=
  mkOState (db s) (samples_db s) (trace s ++ evs) (local_projectId s) (local_voiceId s).

Definition log (ev : Event) : M OState unit :=
  fun s => (add_events s [ev], inr tt).

(** [await supabaseClient.from('voice_projects').update(u).eq('id', projectId)] *)
Definition db_update (env : Env) (u : Update) : M OState unit :=
  fun s => (mkOState (option_map (apply_update (now env) u) (db s)) (samples_db s)
              (trace s ++ [EvDbUpdate u]) (local_projectId s) (local_voiceId s),
            inr tt).

Definition get_project : M OState (option Project) := fun s => (s, inr (db s)).

Definition get_samples_ordered : M OState (list Sample) :=
  fun s => (s, inr (order_by_clip (samples_db s))).

Definition set_local_projectId (v : option string) : M OState unit :=
  fun s => (mkOState (db s) (samples_db s) (trace s) v (local_voiceId s), inr tt).

Definition set_local_voiceId (v : option string) : M OState unit :=
  fun s => (mkOState (db s) (samples_db s) (trace s) (local_projectId s) v, inr tt).

Definition get_locals : M OState (option string * option string) :=
  fun s => (s, inr (local_projectId s, local_voiceId s)).

Definition wait_ms (ms : nat) : M OState unit := log (EvWait ms).

Definition err (msg : string) : Error := mkError msg.

(** The sample download loop, lines 484-512: [i] is the loop index, the
    catch-all [try] makes every failure a [continue]. *)
Fixpoint download_loop (env : Env) (i : nat) (samples : list Sample)
  (successfulSamples : nat) (files : list nat) : M OState (nat * list nat) :=
  match samples with
  | [] => ret (successfulSamples, files)
  | sample :: rest =>
      log (EvFetchSample (sample_url sample)) ;;;
      match download env (sample_url sample) with
      | DlAbort | DlHttpError _ | DlBlob 0 =>
          download_loop env (S i) rest successfulSamples files
      | DlBlob _ =>
          download_loop env (S i) rest (S successfulSamples) (files ++ [i])
      end
  end.

(** The exception [await handleElevenLabsError(response, operation)]
    ends with. *)
Definition provider_error (code : Z) (body : ErrorBody) (operation : string) : Error :=
  match body with
  | JsonMessage m => err (handleElevenLabsError_message code m operation)
  | Unreadable e => err e
  end.

(** The closure retried at lines 523-543. *)
Definition create_voice_attempt (env : Env) (files : list nat) (k : nat)
  : M OState (option string) :=
  log (EvCreateVoice files) ;;;
  match create_voice_resp env k with
  | RespOk voice_id => ret voice_id
  | RespHttpError code body => throw (provider_error code body "voice creation")
  | RespAbort m => throw (err m)
  end.

(** The closure retried at lines 573-607. *)
Definition tts_attempt (env : Env) (voiceId text : string)
  (settings : VoiceSettings) (k : nat) : M OState nat :=
  log (EvTts voiceId text settings) ;;;
  match tts_resp env k with
  | RespOk size => ret size
  | RespHttpError code body => throw (provider_error code body "speech generation")
  | RespAbort m => throw (err m)
  end.

Definition upd_status (st : Status) : Update := mkUpdate (Some st) None None.

Inductive Response :=
  | Success (audioUrl : string)
  | Failure (statusCode : Z) (error : string).

(** The [try] block of [serve], lines 425-674. *)
Definition serve_body (env : Env) : M OState Response :=
  match request_body env with
  | BodyInvalid m => throw (err m)
  | BodyJson body_projectId =>
  set_local_projectId body_projectId ;;;
  if negb (truthy body_projectId) then throw (err "Project ID is required") else
  let projectId := nullish body_projectId "" in
  project_row <- get_project ;;
  match project_row with
  | None => throw (err "Project not found")
  | Some project =>
  samples <- get_samples_ordered ;;
  match samples with
  | [] => throw (err "No voice samples found for this project")
  | _ :: _ =>
  db_update env (upd_status analyzing) ;;;
  loaded <- download_loop env 0 (firstn 25 samples) 0 [] ;;
  let (successfulSamples, files) := loaded in
  if Nat.eqb successfulSamples 0 then
    throw (err "No valid voice samples could be loaded. Please check your recordings and try again.")
  else
  addVoiceData <- retryWithBackoff wait_ms (create_voice_attempt env files) 3 2000 ;;
  set_local_voiceId addVoiceData ;;;
  if negb (truthy addVoiceData) then
    throw (err "No voice ID returned from ElevenLabs. Please try again.")
  else
  let elevenLabsVoiceId := nullish addVoiceData "" in
  db_update env (mkUpdate (Some generating) (Some (Some elevenLabsVoiceId)) None) ;;;
  if script_missing (script_text project) then
    throw (err "No script text provided. Please add text to generate speech.")
  else
  let text := nullish (script_text project) "" in
  audioSize <- retryWithBackoff wait_ms
                 (tts_attempt env elevenLabsVoiceId text (voice_settings_of project)) 3 2000 ;;
  if Nat.eqb audioSize 0 then
    throw (err "Generated audio is empty. Please try again or adjust voice settings.")
  else
  let fileName := (user_id project ++ "/" ++ projectId ++ "_generated.mp3")%string in
  log (EvUpload fileName) ;;;
  match upload_error env with
  | Some m => throw (err ("Failed to upload audio to storage: " ++ m)%string)
  | None =>
  let publicUrl := public_url env fileName in
  db_update env (mkUpdate (Some completed) (Some None) (Some (Some publicUrl))) ;;;
  (* best-effort delete; its outcome is only logged *)
  log (EvDeleteVoice elevenLabsVoiceId) ;;;
  ret (Success publicUrl)
  end end end end.

(** The [catch (error)] block, lines 676-753 (its own database writes are
    wrapped in [try] and never rethrow). *)
Definition catch_handler (env : Env) (error : Error) : M OState Response :=
  locals <- get_locals ;;
  let (projectId, elevenLabsVoiceId) := locals in
  (if truthy projectId && truthy elevenLabsVoiceId then
     log (EvDeleteVoice (nullish elevenLabsVoiceId "")) ;;;
     db_update env (mkUpdate (Some failed) (Some None) None)
   else if truthy projectId then
     db_update env (upd_status failed)
   else ret tt) ;;;
  ret (Failure (status_code_of (message error)) (message error)).

(** [serve] on a POST request. *)
Definition serve (env : Env) : M OState Response :=
  try_catch (serve_body env) (catch_handler env).

(** One generation run of [runGeneration] on a fresh request. *)
Definition run_generation (env : Env) (row : option Project) (samples : list Sample)
  : OState * Response :=
  let (s, r) := serve env (init_state row samples) in
  (s, match r with inl e => Failure 500 (message e) | inr resp => resp end).

(** Indices (in the loop) of the samples whose download yields a non-empty
    blob. *)
Definition survives (env : Env) (sample : Sample) : bool :=
  match download env (sample_url sample) with
  | DlBlob (S _) => true
  | _ => false
  end.

Fixpoint survivor_indices (env : Env) (i : nat) (samples : list Sample) : list nat :=
  match samples with
  | [] => []
  | x :: rest =>
      if survives env x then i :: survivor_indices env (S i) rest
      else survivor_indices env (S i) rest
  end.

(** A computation that only appends events satisfying [P] to the trace
    and leaves the row, the samples and the handler's variables alone. *)
Definition only_logs {A} (P : Event -> Prop) (m : M OState A) : Prop :=
  forall s, exists evs r, m s = (add_events s evs, r) /\ Forall P evs.

Definition is_create_or_wait (files : list nat) (ev : Event) : Prop :=
  ev = EvCreateVoice files \/ exists ms, ev = EvWait ms.

Definition is_tts_or_wait (v text : string) (st : VoiceSettings) (ev : Event) : Prop :=
  ev = EvTts v text st \/ exists ms, ev = EvWait ms.

(** The URLs fetched by the sample downloads, in order. *)
Definition fetched_urls (tr : list Event) : list string :=
  flat_map (fun ev => match ev with EvFetchSample u => [u] | _ => [] end) tr.

(** [a] comes no later than [b] in [.order('clip_number')]. *)
Definition clip_le (a b : Sample) : Prop := (clip_number a <= clip_number b)%Z.

(* ------------------------------------------------------------------ *)
(** ** Concrete requests *)

(** A project with a script and no stored voice parameters, whose last
    generation was stamped at [1000000] ms; two recorded samples. *)
Definition demo_project : Project :=
  mkProject "p1" "u1" (Some "Hello there") None None None None ready None None
    (Some 1000000%Z) 1000000%Z.

Definition demo_samples : list Sample :=
  [mkSample 2%Z "u1/p1/clip2.webm"; mkSample 1%Z "u1/p1/clip1.webm"].

(** Every download and every provider call succeeds; the clock reads one
    minute after the project's [last_generation_at]. *)
Definition demo_env : Env :=
  mkEnv (BodyJson (Some "p1")) (fun _ => DlBlob 4096)
    (fun _ => RespOk (Some "voice1")) (fun _ => RespOk 2048) None
    (fun f => ("https://storage.example/voice-samples/" ++ f)%string)
    1060000%Z.


(* ------------------------------------------------------------------ *)
(** ** The cleanup-voices sweeper *)

(** A voice of the ElevenLabs account, as listed by [GET /v1/voices]. *)
Record Voice := mkVoice { voice_id : string; name : string }.

(** The [voice_projects] table and the voices of the ElevenLabs account. *)
Record SweepState := mkSweepState { rows : list Project; remote : list Voice }.

(** The answer to [DELETE /v1/voices/{id}]: a 2xx status, another status,
    or a rejected fetch. *)
Inductive DelResp := DelOk | DelStatus (code : Z) | DelReject.

Record SweepEnv := mkSweepEnv {
  api_key : option string;
  (** [Date.now()], also the clock of the [updated_at] trigger *)
  sweep_now : Z;
  (** the error of the first [voice_projects] query, if any *)
  query_error : option string;
  (** the provider answers a delete according to the voice id and
      whether the account holds that voice; a 2xx answer removes it *)
  del_resp : string -> bool -> DelResp;
  (** [voicesResponse.ok] of [GET /v1/voices] *)
  list_ok : bool;
  (** the second [voice_projects] query, lines 217-220, fails: its error
      is not read, [allProjects] is [null], and [knownVoiceIds] is empty *)
  all_projects_error : bool
}.

Inductive SweepResult :=
  | SweepOk (cleaned failed : nat)
  | SweepError (error : string).

Definition is_ok (r : DelResp) : bool :=
  match r with DelOk => true | _ => false end.

Definition is_404 (r : DelResp) : bool :=
  match r with DelStatus code => Z.eqb code 404 | _ => false end.

Definition present (v : string) (st : SweepState) : bool :=
  existsb (fun w => String.eqb (voice_id w) v) (remote st).

Definition remove_voice (v : string) (st : SweepState) : SweepState :=
  mkSweepState (rows st) (filter (fun w => negb (String.eqb (voice_id w) v)) (remote st)).

(** [fetch(`.../v1/voices/${v}`, { method: 'DELETE' })] *)
Definition delete_voice (env : SweepEnv) (v : string) (st : SweepState)
  : SweepState * DelResp :=
  let resp := del_resp env v (present v st) in
  (if is_ok resp then remove_voice v st else st, resp).

Definition is_failed_or_completed (s : Status) : bool :=
  match s with failed | completed => true | _ => false end.

(** [status.eq.failed,status.eq.completed,updated_at.lt.${oneHourAgo}] *)
Definition stale_or_finished (env : SweepEnv) (r : Project) : bool :=
  is_failed_or_completed (status r)
  || Z.ltb (updated_at r) (sweep_now env - 60 * 60 * 1000).

(** [.not('elevenlabs_voice_id', 'is', null)
     .or(`status.eq.failed,status.eq.completed,updated_at.lt.${oneHourAgo}`)],
    projected on [id, elevenlabs_voice_id]. *)
Definition project_entries (env : SweepEnv) (rs : list Project) : list (string * string) :=
  flat_map (fun r =>
    match elevenlabs_voice_id r with
    | Some v =>
        if stale_or_finished env r then [(id r, v)] else []
    | None => []
    end) rs.

(** [.update({ elevenlabs_voice_id: null }).eq('id', project.id)] *)
Definition clear_voice_id (env : SweepEnv) (pid : string) (st : SweepState) : SweepState :=
  mkSweepState
    (map (fun r => if String.eqb (id r) pid
                   then apply_update (sweep_now env) (mkUpdate None (Some None) None) r
                   else r) (rows st))
    (remote st).

(** The loop over [projectsWithVoices], lines 168-200. *)
Fixpoint cleanup_projects (env : SweepEnv) (entries : list (string * string))
  (st : SweepState) (cleanedCount failedCount : nat) : SweepState * nat * nat :=
  match entries with
  | [] => (st, cleanedCount, failedCount)
  | (pid, v) :: rest =>
      let (st1, resp) := delete_voice env v st in
      if is_ok resp || is_404 resp
      then cleanup_projects env rest (clear_voice_id env pid st1) (S cleanedCount) failedCount
      else cleanup_projects env rest st1 cleanedCount (S failedCount)
  end.

(** [knownVoiceIds] when the query succeeds: the non-null voice ids of
    the table. *)
Definition known_voice_ids (rs : list Project) : list string :=
  flat_map (fun r => match elevenlabs_voice_id r with Some v => [v] | None => [] end) rs.

(** The loop over [voices], lines 225-246. *)
Fixpoint cleanup_orphans (env : SweepEnv) (voices : list Voice) (known : list string)
  (st : SweepState) (cleanedCount : nat) : SweepState * nat :=
  match voices with
  | [] => (st, cleanedCount)
  | w :: rest =>
      if startsWith (name w) "Voice_" && negb (existsb (String.eqb (voice_id w)) known)
      then
        let (st1, resp) := delete_voice env (voice_id w) st in
        cleanup_orphans env rest known st1
          (if is_ok resp then S cleanedCount else cleanedCount)
      else cleanup_orphans env rest known st cleanedCount
  end.

(** [new Set(allProjects?.map(p => p.elevenlabs_voice_id) || [])],
    read after the project loop. *)
Definition knownVoiceIds (env : SweepEnv) (st : SweepState) : list string :=
  if all_projects_error env then [] else known_voice_ids (rows st).

(** One run of the cleanup-voices handler. *)
Definition sweep (env : SweepEnv) (st : SweepState) : SweepState * SweepResult :=
  if negb (truthy (api_key env))
  then (st, SweepError "ElevenLabs API key not configured") else
  match query_error env with
  | Some m => (st, SweepError m)
  | None =>
      let '(st1, cleanedCount, failedCount) :=
        cleanup_projects env (project_entries env (rows st)) st 0 0 in
      let (st2, cleanedCount2) :=
        if list_ok env
        then cleanup_orphans env (remote st1) (knownVoiceIds env st1) st1 cleanedCount
        else (st1, cleanedCount) in
      (st2, SweepOk cleanedCount2 failedCount)
  end.

(** The answers on which the loop clears a row. *)
Definition clears (r : DelResp) : bool := is_ok r || is_404 r.

(* ------------------------------------------------------------------ *)
(** ** The first revision of [serve] (lines 58-325 of clone-voice)

    The same steps without [retryWithBackoff]: one [POST /v1/voices/add]
    (attempt 0 of [create_voice_attempt]) and one text-to-speech request.
    The [generating] update does not store the voice id, and the [catch]
    block does not delete the voice.  The project id that block uses comes
    from parsing the body a second time, [req.clone().json()]:
    [projectId] is the [projectId] of that parse, or [None] (undefined)
    when [clone()] or [json()] throws (the block swallows it). *)

Definition serve_body_v1 (env : Env) : M OState Response :=
  match request_body env with
  | BodyInvalid m => throw (err m)
  | BodyJson body_projectId =>
  if negb (truthy body_projectId) then throw (err "Project ID is required") else
  let projectId := nullish body_projectId "" in
  project_row <- get_project ;;
  match project_row with
  | None => throw (err "Project not found")
  | Some project =>
  samples <- get_samples_ordered ;;
  match samples with
  | [] => throw (err "No voice samples found for this project")
  | _ :: _ =>
  db_update env (upd_status analyzing) ;;;
  loaded <- download_loop env 0 (firstn 25 samples) 0 [] ;;
  let (successfulSamples, files) := loaded in
  if Nat.eqb successfulSamples 0 then
    throw (err "No valid voice samples could be loaded. Please check your recordings and try again.")
  else
  addVoiceData <- create_voice_attempt env files 0 ;;
  if negb (truthy addVoiceData) then
    throw (err "No voice ID returned from ElevenLabs. Please try again.")
  else
  let voice_id := nullish addVoiceData "" in
  db_update env (upd_status generating) ;;;
  if script_missing (script_text project) then
    throw (err "No script text provided. Please add text to generate speech.")
  else
  let text := nullish (script_text project) "" in
  audioSize <- tts_attempt env voice_id text (voice_settings_of project) 0 ;;
  if Nat.eqb audioSize 0 then
    throw (err "Generated audio is empty. Please try again or adjust voice settings.")
  else
  let fileName := (user_id project ++ "/" ++ projectId ++ "_generated.mp3")%string in
  log (EvUpload fileName) ;;;
  match upload_error env with
  | Some m => throw (err ("Failed to upload audio to storage: " ++ m)%string)
  | None =>
  let publicUrl := public_url env fileName in
  db_update env (mkUpdate (Some completed) None (Some (Some publicUrl))) ;;;
  (* best-effort delete; its outcome is only logged *)
  log (EvDeleteVoice voice_id) ;;;
  ret (Success publicUrl)
  end end end end.

(** The [catch (error)] block of the first revision, lines 261-324. *)
Definition catch_handler_v1 (env : Env) (projectId : option string)
  (error : Error) : M OState Response :=
  (if truthy projectId then db_update env (upd_status failed) else ret tt) ;;;
  ret (Failure (status_code_of (message error)) (message error)).

Definition run_generation_v1 (env : Env) (projectId : option string)
  (row : option Project) (samples : list Sample) : OState * Response :=
  let (s, r) := try_catch (serve_body_v1 env) (catch_handler_v1 env projectId)
                  (init_state row samples) in
  (s, match r with inl e => Failure 500 (message e) | inr resp => resp end).

(* ------------------------------------------------------------------ *)
(** ** The [validate_voice_parameters] trigger

    Migration 20251104060129, lines 16-36; a [BEFORE INSERT OR UPDATE]
    trigger on [voice_projects] (migration 20251103044013). *)

(** [a < b] on [real] values. *)
Definition Qltb (a b : Q) : bool := negb (Qle_bool b a).

(** [IF NEW.col IS NOT NULL AND (NEW.col < 0 OR NEW.col > 1) THEN
    RAISE EXCEPTION 'col must be between 0 and 1, got %', NEW.col]: the
    exception names the column and carries the value; [k] is the rest of
    the function. *)
Definition check_unit_param (column : string) (o : option Q)
  (k : option (string * Q)) : option (string * Q) :=
  match o with
  | Some x => if Qltb x 0%Q || Qltb 1%Q x then Some (column, x) else k
  | None => k
  end.

(** [None] is [RETURN NEW]. *)
Definition validate_voice_parameters (p : Project) : option (string * Q) :=
  check_unit_param "voice_stability" (voice_stability p)
    (check_unit_param "voice_similarity_boost" (voice_similarity_boost p)
      (check_unit_param "voice_style" (voice_style p) None)).



(* ------------------------------------------------------------------ *)
(** ** [GenerateVoiceDialog.handleGenerate] (src/unnamed/part_002,
    lines 40-110): the caller that starts a generation *)

Inductive GenerateStep :=
  | GenToast (title : string)
  | GenSubmit (trimmedScript : string) (settings : VoiceSettings).

(** The checks before the update, in their order. *)
Definition handleGenerate_checks (scriptText : string)
  (stability similarityBoost style : Q) (speakerBoost : bool) : GenerateStep :=
  let trimmedScript := trim scriptText in
  if String.eqb trimmedScript "" then GenToast "Script Required"
  else if (10000 <? Z.of_nat (String.length trimmedScript))%Z then GenToast "Script Too Long"
  else if Qltb stability 0%Q || Qltb 1%Q stability
          || Qltb similarityBoost 0%Q || Qltb 1%Q similarityBoost
          || Qltb style 0%Q || Qltb 1%Q style
  then GenToast "Invalid Parameters"
  else GenSubmit trimmedScript
         (mkVoiceSettings stability similarityBoost style speakerBoost).

(** [.update({ script_text: trimmedScript, voice_stability: stability,
    voice_similarity_boost: similarityBoost, voice_style: style,
    voice_speaker_boost: speakerBoost }).eq("id", projectId)]; the
    [updated_at] trigger stamps the time. *)
Definition dialog_update (now : Z) (trimmedScript : string) (st : VoiceSettings)
  (p : Project) : Project :=
  mkProject (id p) (user_id p) (Some trimmedScript) (Some (stability st))
    (Some (similarity_boost st)) (Some (style st)) (Some (use_speaker_boost st))
    (status p) (elevenlabs_voice_id p) (generated_audio_url p)
    (last_generation_at p) now.

(** The world of a request whose body the caller sets:
    [supabase.functions.invoke("clone-voice", { body })]. *)
Definition with_body (env : Env) (b : Body) : Env :=
  mkEnv b (download env) (create_voice_resp env) (tts_resp env) (upload_error env)
    (public_url env) (now env).

(** [handleGenerate] when the update and the invocation go through: the
    checks, then the update of the row [projectId], then the run of
    [clone-voice] on [{ projectId }]. *)
Definition handleGenerate (env : Env) (projectId scriptText : string)
  (stability similarityBoost style : Q) (speakerBoost : bool)
  (row : option Project) (samples : list Sample)
  : GenerateStep * option (OState * Response) :=
  match handleGenerate_checks scriptText stability similarityBoost style speakerBoost with
  | GenToast title => (GenToast title, None)
  | GenSubmit trimmedScript st =>
      (GenSubmit trimmedScript st,
       Some (run_generation (with_body env (BodyJson (Some projectId)))
               (option_map (dialog_update (now env) trimmedScript st) row) samples))
  end.

(* ------------------------------------------------------------------ *)
(** ** [CreateProjectDialog.handleSubmit] (src/unnamed/part_000, lines
    12-15 and 45-140) *)

(** The first issue of [projectSchema.safeParse({ name, script })]: both
    fields are trimmed, then checked against their bounds, [name] first. *)
Definition projectSchema_first_issue (name script : string) : option string :=
  let n := Z.of_nat (String.length (trim name)) in
  let s := Z.of_nat (String.length (trim script)) in
  if (n <? 1)%Z then Some "Project name is required"
  else if (100 <? n)%Z then Some "Name must be less than 100 characters"
  else if (s <? 10)%Z then Some "Script must be at least 10 characters"
  else if (5000 <? s)%Z then Some "Script must be less than 5000 characters"
  else None.

(** The row the insert creates, with the column defaults of the schema
    (voice parameters 0.5, 0.75, 0 and [true]; no voice, no audio, no
    generation yet). *)
Definition inserted_project (newId userId script : string) (now : Z) : Project :=
  mkProject newId userId (Some script) (Some (Qmake 1 2)) (Some (Qmake 3 4))
    (Some (Qmake 0 1)) (Some true) draft None None None now.

Inductive SubmitOutcome :=
  | SubmitToast (title description : string)
  | SubmitCreated (project : Project) (run : OState * Response).

(** [handleSubmit]: [audioFileSize] is the chosen file's size, [user] the
    answer of [supabase.auth.getUser()], [uploadError] and [insertError]
    the errors of the storage upload and of the insert, [newId] the id of
    the inserted row.  The background [clone-voice] run reads the
    [voice_samples] of a project inserted a moment before: there are
    none. *)
Definition handleSubmit (env : Env) (name script : string)
  (audioFileSize : option nat) (user uploadError insertError : option string)
  (newId : string) : SubmitOutcome :=
  match projectSchema_first_issue name script with
  | Some m => SubmitToast "Validation Error" m
  | None =>
  match audioFileSize with
  | None => SubmitToast "Missing voice sample" "Please upload an audio file"
  | Some size =>
  if (20 * 1024 * 1024 <? Z.of_nat size)%Z
  then SubmitToast "File too large" "Audio file must be less than 20MB" else
  match user with
  | None => SubmitToast "Error" "Not authenticated"
  | Some userId =>
  match uploadError with
  | Some m => SubmitToast "Error" m
  | None =>
  match insertError with
  | Some m => SubmitToast "Error" m
  | None =>
      let project := inserted_project newId userId (trim script) (now env) in
      SubmitCreated project
        (run_generation (with_body env (BodyJson (Some newId))) (Some project) [])
  end end end end end.

(* ------------------------------------------------------------------ *)
(** ** Counting what a run does *)

(** The events of the failed attempts [a .. a+n-1] of a retried step that
    logs [ev] per attempt, each followed by its back-off wait. *)
Definition backoff_events (ev : Event) (initialDelay a n : nat) : list Event :=
  flat_map (fun i => [ev; EvWait (initialDelay * 2 ^ i)]) (seq a n).

(** The outcome of attempt [k] of the closures retried by [serve]. *)
Definition create_outcome (env : Env) (k : nat) : Error + option string :=
  match create_voice_resp env k with
  | RespOk voice_id => inr voice_id
  | RespHttpError code body => inl (provider_error code body "voice creation")
  | RespAbort m => inl (err m)
  end.

Definition tts_outcome (env : Env) (k : nat) : Error + nat :=
  match tts_resp env k with
  | RespOk size => inr size
  | RespHttpError code body => inl (provider_error code body "speech generation")
  | RespAbort m => inl (err m)
  end.

Fixpoint count_ev (f : Event -> bool) (tr : list Event) : nat :=
  match tr with
  | [] => 0
  | ev :: tr' => (if f ev then 1 else 0) + count_ev f tr'
  end.

Definition is_create_ev (ev : Event) : bool :=
  match ev with EvCreateVoice _ => true | _ => false end.

Definition is_tts_ev (ev : Event) : bool :=
  match ev with EvTts _ _ _ => true | _ => false end.

Definition is_fetch_ev (ev : Event) : bool :=
  match ev with EvFetchSample _ => true | _ => false end.

Definition is_delete_ev (ev : Event) : bool :=
  match ev with EvDeleteVoice _ => true | _ => false end.

(** Milliseconds spent in back-off waits. *)
Fixpoint wait_total (tr : list Event) : nat :=
  match tr with
  | [] => 0
  | EvWait ms :: tr' => ms + wait_total tr'
  | _ :: tr' => wait_total tr'
  end.

Fixpoint waited (tr : list RetryEvent) : nat :=
  match tr with
  | [] => 0
  | Wait ms :: tr' => ms + waited tr'
  | Invoke _ :: tr' => waited tr'
  end.

(** A database write of the trace. *)
Definition is_db_ev (ev : Event) : bool :=
  match ev with EvDbUpdate _ => true | _ => false end.

(* ------------------------------------------------------------------ *)
(** ** [VoiceProjectCard] (src/components/VoiceProjectCard.tsx, lines
    24-119): what the card shows for a row *)

(** [['analyzing', 'generating', 'training'].includes(project.status)]:
    the card shows a spinner. *)
Definition isProcessing (s : Status) : bool :=
  match s with analyzing | generating | training => true | _ => false end.

(** [project.generated_audio_url && project.status === 'completed']: the
    card shows the audio player. *)
Definition showsAudioPlayer (project : Project) : bool :=
  truthy (generated_audio_url project)
  && match status project with completed => true | _ => false end.

(* ------------------------------------------------------------------ *)
(** ** Further concrete inputs *)

(** The provider rejects every voice creation with HTTP 401. *)
Definition rejecting_env : Env :=
  mkEnv (BodyJson (Some "p1")) (fun _ => DlBlob 4096)
    (fun _ => RespHttpError 401%Z (JsonMessage "invalid_api_key")) (fun _ => RespOk 2048) None
    (fun f => ("https://storage.example/voice-samples/" ++ f)%string)
    1060000%Z.

(** Every sample download answers HTTP 404. *)
Definition unreachable_samples_env : Env :=
  mkEnv (BodyJson (Some "p1")) (fun _ => DlHttpError 404%Z)
    (fun _ => RespOk (Some "voice1")) (fun _ => RespOk 2048) None
    (fun f => ("https://storage.example/voice-samples/" ++ f)%string)
    1060000%Z.

(** A row generating for 200 s and a failed row, both holding a voice;
    every delete succeeds. *)
Definition active_row : Project :=
  mkProject "p1" "u1" (Some "Hello there") None None None None generating (Some "v1") None
    None 7000000%Z.

Definition finished_row : Project :=
  mkProject "p2" "u1" (Some "Hello there") None None None None failed (Some "v2") None
    None 1000000%Z.

Definition sweep_demo_env : SweepEnv :=
  mkSweepEnv (Some "key") 7200000%Z None (fun _ _ => DelOk) true false.

Definition sweep_demo_state : SweepState :=
  mkSweepState [active_row; finished_row] [mkVoice "v1" "Voice_p1"; mkVoice "v2" "Voice_p2"].

(** [sweep_demo_env] when the second [voice_projects] query fails. *)
Definition sweep_no_known_env : SweepEnv :=
  mkSweepEnv (Some "key") 7200000%Z None (fun _ _ => DelOk) true true.

(* ------------------------------------------------------------------ *)
(** ** Auxiliary notions of the proofs *)

(** A string that [trim_start] leaves alone. *)
Definition good_head (s : string) : bool :=
  match s with EmptyString => true | String c _ => negb (is_ws c) end.

(** A row the sweep left as it was or whose voice id it cleared. *)
Definition cleared_or_same (now : Z) (r r' : Project) : Prop :=
  r' = r \/ r' = apply_update now (mkUpdate None (Some None) None) r.

(* ================================================================== *)
(** * Theorems *)

Lemma includes_of_prefix (s p : string) :
  prefix p s = true -> includes s p = true.
Proof. intros H; destruct s; cbn [includes]; rewrite H; reflexivity. Qed.

Lemma prefix_app_includes (a b s : string) :
  prefix (a ++ b) s = true -> includes s b = true.
Proof.
  revert s; induction a as [|c a IH]; intros s H; simpl in H.
  - apply includes_of_prefix; exact H.
  - destruct s as [|c' s']; simpl in H; [discriminate|].
    destruct (ascii_dec c c'); [|discriminate].
    cbn [includes]. destruct (prefix b (String c' s')); [reflexivity|].
    apply IH; exact H.
Qed.

Lemma includes_app_r (a b s : string) :
  includes s (a ++ b) = true -> includes s b = true.
Proof.
  induction s as [|c s IH]; intros H; cbn [includes] in H.
  - destruct (prefix (a ++ b) "") eqn:E; [|discriminate].
    apply (prefix_app_includes a b); exact E.
  - destruct (prefix (a ++ b) (String c s)) eqn:E.
    + apply (prefix_app_includes a b); exact E.
    + cbn [includes]. destruct (prefix b (String c s)); [reflexivity|]. apply IH; exact H.
Qed.

Lemma includes_rate_limit_limit (s : string) :
  includes s "rate limit" = true -> includes s "limit" = true.
Proof. apply (includes_app_r "rate "). Qed.

(** C10: for every error message the status computed by the catch block
    is never 429: the 402 test on "limit" fires for every message that
    contains "rate limit", so such messages get 402. *)
Theorem status_code_never_429 (msg : string) :
  status_code_of msg <> 429%Z
  /\ (includes msg "rate limit" = true -> status_code_of msg = 402%Z).
Proof.
  unfold status_code_of.
  destruct (includes msg "quota" || includes msg "limit") eqn:E1.
  - split; [discriminate | reflexivity].
  - apply orb_false_iff in E1 as [_ Hl].
    destruct (includes msg "rate limit") eqn:Er.
    + apply includes_rate_limit_limit in Er. congruence.
    + split; [|discriminate].
      destruct (includes msg "invalid" || includes msg "format"); [discriminate|].
      destruct (includes msg "API key"); discriminate.
Qed.

Lemma traced_op_eq {A} (outcome : nat -> Error + A) k tr :
  traced_op outcome k tr = (tr ++ [Invoke k], outcome k).
Proof. reflexivity. Qed.

Lemma log_wait_eq ms tr : log_retry (Wait ms) tr = (tr ++ [Wait ms], inr tt).
Proof. reflexivity. Qed.

Lemma retry_loop_spec {A} (outcome : nat -> Error + A) (maxRetries d : nat) :
  forall fuel attempt tr last,
    attempt + fuel = maxRetries -> 1 <= fuel ->
    exists k,
      attempt <= k < maxRetries
      /\ (forall i, attempt <= i < k -> is_err (outcome i) = true)
      /\ (k = maxRetries - 1 \/ is_err (outcome k) = false)
      /\ retry_loop (fun ms => log_retry (Wait ms)) (traced_op outcome)
           maxRetries d attempt fuel last tr
         = (tr ++ failed_attempts d attempt (k - attempt) ++ [Invoke k], outcome k).
Proof.
  induction fuel as [|fuel IH]; intros attempt tr last Hsum Hf; [lia|].
  cbn [retry_loop]. unfold try_catch. cbv beta. rewrite traced_op_eq.
  destruct (outcome attempt) as [e|a] eqn:Ho.
  - unfold bind. cbv beta iota.
    destruct fuel as [|fuel'].
    + (* last attempt *)
      exists attempt. split; [lia|]. split; [intros; lia|].
      split; [left; lia|].
      assert (Hlt : (attempt <? maxRetries - 1) = false) by (apply Nat.ltb_ge; lia).
      rewrite Hlt. cbn [retry_loop]. unfold ret, throw.
      rewrite Nat.sub_diag. simpl. rewrite Ho. reflexivity.
    + assert (Hlt : (attempt <? maxRetries - 1) = true) by (apply Nat.ltb_lt; lia).
      rewrite Hlt, log_wait_eq.
      destruct (IH (S attempt) ((tr ++ [Invoke attempt]) ++ [Wait (d * 2 ^ attempt)])
                  (Some e) ltac:(lia) ltac:(lia))
        as (k & Hk & Hbefore & Hend & Hrun).
      exists k. split; [lia|]. split.
      * intros i Hi. destruct (Nat.eq_dec i attempt) as [->|Hne].
        -- rewrite Ho; reflexivity.
        -- apply Hbefore; lia.
      * split; [exact Hend|].
        rewrite Hrun.
        replace (k - attempt) with (S (k - S attempt)) by lia.
        unfold failed_attempts. cbn [seq flat_map].
        rewrite <- !app_assoc. reflexivity.
  - exists attempt. split; [lia|]. split; [intros; lia|].
    split; [right; rewrite Ho; reflexivity|].
    rewrite Nat.sub_diag, Ho. reflexivity.
Qed.

(** C6: for every outcome of the operation and every [maxRetries >= 1],
    [retryWithBackoff] makes attempts [0 .. k] for some [k < maxRetries]
    (so at most [maxRetries] invocations), waits [initialDelay * 2^i]
    after each failed attempt [i] that is not the last one, stops at the
    first success, and returns the answer of attempt [k] unchanged: the
    first successful result, or, when every attempt failed, the error of
    the last attempt itself. *)
Theorem retryWithBackoff_spec {A} (outcome : nat -> Error + A)
  (maxRetries initialDelay : nat) (Hmax : 1 <= maxRetries) :
  exists k,
    k < maxRetries
    /\ (forall i, i < k -> is_err (outcome i) = true)
    /\ (k = maxRetries - 1 \/ is_err (outcome k) = false)
    /\ traced_retry outcome maxRetries initialDelay
       = (failed_attempts initialDelay 0 k ++ [Invoke k], outcome k).
Proof.
  destruct (retry_loop_spec outcome maxRetries initialDelay maxRetries 0 [] None
              ltac:(lia) Hmax) as (k & Hk & Hb & He & Hr).
  exists k. split; [lia|]. split; [intros i Hi; apply Hb; lia|].
  split; [exact He|].
  unfold traced_retry, retryWithBackoff. rewrite Hr, Nat.sub_0_r. reflexivity.
Qed.

Lemma invocations_app tr1 tr2 :
  invocations (tr1 ++ tr2) = invocations tr1 ++ invocations tr2.
Proof. unfold invocations. apply flat_map_app. Qed.

Lemma invocations_failed_attempts d a n :
  invocations (failed_attempts d a n) = seq a n.
Proof.
  revert a; induction n as [|n IH]; intros a; [reflexivity|].
  unfold failed_attempts in *. cbn [seq flat_map].
  rewrite invocations_app, IH. reflexivity.
Qed.

(** C5 (as amended): [retryWithBackoff] does not look at the error it
    catches: whenever the first [maxRetries] attempts all fail, whatever
    their errors (including those [handleElevenLabsError] throws for
    401, 402 and 422), the run is attempts [0 .. maxRetries - 1], each
    but the last followed by its back-off wait of
    [initialDelay * 2^attempt] ms ([failed_attempts]), and its result is
    the error of the last attempt; so the operation is invoked exactly
    [maxRetries] times. *)
Theorem retryWithBackoff_retries_every_error {A} (outcome : nat -> Error + A)
  (maxRetries initialDelay : nat) (Hmax : 1 <= maxRetries)
  (Hfail : forall i, i < maxRetries -> is_err (outcome i) = true) :
  traced_retry outcome maxRetries initialDelay
  = (failed_attempts initialDelay 0 (maxRetries - 1) ++ [Invoke (maxRetries - 1)],
     outcome (maxRetries - 1))
  /\ invocations (fst (traced_retry outcome maxRetries initialDelay))
     = seq 0 maxRetries.
Proof.
  destruct (retry_loop_spec outcome maxRetries initialDelay maxRetries 0 [] None
              ltac:(lia) Hmax) as (k & Hk & _ & He & Hr).
  assert (Hkl : k = maxRetries - 1).
  { destruct He as [He|He]; [exact He|].
    rewrite (Hfail k ltac:(lia)) in He. discriminate. }
  assert (Ht : traced_retry outcome maxRetries initialDelay
               = (failed_attempts initialDelay 0 (maxRetries - 1) ++ [Invoke (maxRetries - 1)],
                  outcome (maxRetries - 1))).
  { unfold traced_retry, retryWithBackoff. rewrite Hr, Nat.sub_0_r, Hkl. reflexivity. }
  split; [exact Ht|].
  rewrite Ht. cbn [fst].
  rewrite invocations_app, invocations_failed_attempts.
  cbn. destruct maxRetries as [|m]; [lia|].
  rewrite seq_S. replace (S m - 1) with m by lia. reflexivity.
Qed.

(** C5 counterexample: an operation whose every attempt fails with the
    AuthError of a 401 is invoked three times, with the back-off waits
    in between, although a 401 is a classified, non-transient error. *)
Lemma retry_reinvokes_auth_error :
  traced_retry (fun _ => auth_failure) 3 2000
  = ([Invoke 0; Wait 2000; Invoke 1; Wait 4000; Invoke 2], auth_failure).
Proof. vm_compute. reflexivity. Qed.

Lemma retryWithBackoff_retries_every_error_witness :
  traced_retry (fun _ => auth_failure) 3 2000
  = (failed_attempts 2000 0 (3 - 1) ++ [Invoke (3 - 1)], auth_failure)
  /\ invocations (fst (traced_retry (fun _ => auth_failure) 3 2000)) = seq 0 3.
Proof.
  apply (retryWithBackoff_retries_every_error (fun _ => auth_failure) 3 2000);
    [lia | intros; reflexivity].
Defined.

Lemma retryWithBackoff_spec_witness :
  exists k, k < 3
    /\ (forall i, i < k -> is_err (auth_failure) = true)
    /\ (k = 3 - 1 \/ is_err (auth_failure) = false)
    /\ traced_retry (fun _ => auth_failure) 3 2000
       = (failed_attempts 2000 0 k ++ [Invoke k], auth_failure).
Proof. apply (retryWithBackoff_spec (fun _ => auth_failure) 3 2000); lia. Defined.

(* ------------------------------------------------------------------ *)
(** ** Frame lemmas for the loops of [serve] *)

Lemma add_events_nil s : add_events s [] = s.
Proof. destruct s; unfold add_events; simpl; rewrite app_nil_r; reflexivity. Qed.

Lemma add_events_app s e1 e2 :
  add_events (add_events s e1) e2 = add_events s (e1 ++ e2).
Proof. destruct s; unfold add_events; simpl; rewrite app_assoc; reflexivity. Qed.

Lemma only_logs_ret {A} P (a : A) : only_logs P (ret a).
Proof. intros s; exists [], (inr a); rewrite add_events_nil; auto. Qed.

Lemma only_logs_throw {A} P e : only_logs P (@throw OState A e).
Proof. intros s; exists [], (inl e); rewrite add_events_nil; auto. Qed.

Lemma only_logs_log (P : Event -> Prop) ev : P ev -> only_logs P (log ev).
Proof. intros H s; exists [ev], (inr tt); auto. Qed.

Lemma only_logs_bind {A B} P (m : M OState A) (k : A -> M OState B) :
  only_logs P m -> (forall a, only_logs P (k a)) -> only_logs P (bind m k).
Proof.
  intros Hm Hk s. destruct (Hm s) as (e1 & r1 & E1 & F1).
  unfold bind; rewrite E1. destruct r1 as [e|a].
  - exists e1, (inl e); auto.
  - destruct (Hk a (add_events s e1)) as (e2 & r2 & E2 & F2).
    rewrite E2, add_events_app. exists (e1 ++ e2), r2.
    split; [reflexivity|]. apply Forall_app; auto.
Qed.

Lemma only_logs_try_catch {A} P (m : M OState A) h :
  only_logs P m -> (forall e, only_logs P (h e)) -> only_logs P (try_catch m h).
Proof.
  intros Hm Hh s. destruct (Hm s) as (e1 & r1 & E1 & F1).
  unfold try_catch; rewrite E1. destruct r1 as [e|a].
  - destruct (Hh e (add_events s e1)) as (e2 & r2 & E2 & F2).
    rewrite E2, add_events_app. exists (e1 ++ e2), r2.
    split; [reflexivity|]. apply Forall_app; auto.
  - exists e1, (inr a); auto.
Qed.

Lemma only_logs_retry_loop {A} P wait (fn : nat -> M OState A) m d :
  (forall ms, only_logs P (wait ms)) -> (forall k, only_logs P (fn k)) ->
  forall fuel attempt last, only_logs P (retry_loop wait fn m d attempt fuel last).
Proof.
  intros Hw Hf fuel; induction fuel as [|fuel IH]; intros attempt last.
  - apply only_logs_throw.
  - cbn [retry_loop]. apply only_logs_try_catch; [apply Hf|].
    intros e. apply only_logs_bind; [|intros; apply IH].
    destruct (attempt <? m - 1); [apply Hw | apply only_logs_ret].
Qed.

(** The first attempt is always made: a retried step that logs exactly
    one event [ev] per attempt logs [ev] first. *)
Lemma retry_first_attempt {A} (P : Event -> Prop) (fn : nat -> M OState A) ev s :
  (forall ms, P (EvWait ms)) -> (forall k, only_logs P (fn k)) ->
  (forall k s, exists r, fn k s = (add_events s [ev], r)) ->
  exists evs r, retryWithBackoff wait_ms fn 3 2000 s = (add_events s (ev :: evs), r)
                /\ Forall P evs.
Proof.
  intros Hw Hfn H1. unfold retryWithBackoff. cbn [retry_loop]. unfold try_catch at 1.
  destruct (H1 0 s) as (r0 & E0). rewrite E0. destruct r0 as [e|a].
  - assert (HA : only_logs P (if 0 <? 3 - 1 then wait_ms (2000 * 2 ^ 0) else ret tt)).
    { simpl. apply only_logs_log, Hw. }
    assert (HB : forall u : unit,
               only_logs P (retry_loop wait_ms fn 3 2000 1 2 (Some e))).
    { intros _. apply only_logs_retry_loop; [|exact Hfn].
      intros ms. apply only_logs_log, Hw. }
    destruct (only_logs_bind P _ _ HA HB (add_events s [ev])) as (evs & r & E & F).
    cbv beta iota. exists evs, r. split; [|exact F].
    transitivity (add_events (add_events s [ev]) evs, r); [exact E|].
    rewrite add_events_app. reflexivity.
  - exists [], (inr a). split; [reflexivity | constructor].
Qed.

Lemma create_retry_first env files s :
  exists evs r,
    retryWithBackoff wait_ms (create_voice_attempt env files) 3 2000 s
    = (add_events s (EvCreateVoice files :: evs), r)
    /\ Forall (is_create_or_wait files) evs.
Proof.
  apply retry_first_attempt.
  - intros ms. right; eauto.
  - intros k. apply only_logs_bind; [apply only_logs_log; left; reflexivity|].
    intros _. destruct (create_voice_resp env k);
      [apply only_logs_ret | apply only_logs_throw | apply only_logs_throw].
  - intros k s0. unfold create_voice_attempt, bind, log.
    destruct (create_voice_resp env k); eexists; reflexivity.
Qed.

Lemma tts_retry_first env v text st s :
  exists evs r,
    retryWithBackoff wait_ms (tts_attempt env v text st) 3 2000 s
    = (add_events s (EvTts v text st :: evs), r)
    /\ Forall (is_tts_or_wait v text st) evs.
Proof.
  apply retry_first_attempt.
  - intros ms. right; eauto.
  - intros k. apply only_logs_bind; [apply only_logs_log; left; reflexivity|].
    intros _. destruct (tts_resp env k);
      [apply only_logs_ret | apply only_logs_throw | apply only_logs_throw].
  - intros k s0. unfold tts_attempt, bind, log.
    destruct (tts_resp env k); eexists; reflexivity.
Qed.

Lemma download_loop_eq env samples :
  forall i n files s,
    download_loop env i samples n files s
    = (add_events s (map (fun x => EvFetchSample (sample_url x)) samples),
       inr (n + length (survivor_indices env i samples),
            files ++ survivor_indices env i samples)).
Proof.
  induction samples as [|x rest IH]; intros i n files s.
  - simpl. rewrite add_events_nil, Nat.add_0_r, app_nil_r. reflexivity.
  - cbn [download_loop]. unfold bind, log.
    cbn [map survivor_indices]. unfold survives.
    destruct (download env (sample_url x)) as [| code | [|size]];
      rewrite IH, add_events_app; simpl;
      rewrite ?Nat.add_succ_r, <- ?app_assoc; reflexivity.
Qed.

Lemma insert_by_clip_length x l : length (insert_by_clip x l) = S (length l).
Proof.
  induction l as [|y l IH]; simpl; [reflexivity|].
  destruct (Z.leb (clip_number x) (clip_number y)); simpl; [reflexivity|].
  rewrite IH; reflexivity.
Qed.

Lemma order_by_clip_length l : length (order_by_clip l) = length l.
Proof.
  induction l as [|x l IH]; simpl; [reflexivity|].
  rewrite insert_by_clip_length, IH; reflexivity.
Qed.

Lemma HdRel_insert_by_clip y x l :
  clip_le y x -> HdRel clip_le y l -> HdRel clip_le y (insert_by_clip x l).
Proof.
  intros Hyx Hl. destruct l as [|z l]; simpl; [constructor; assumption|].
  destruct (Z.leb (clip_number x) (clip_number z)); constructor;
    [assumption | inversion Hl; assumption].
Qed.

Lemma insert_by_clip_sorted x l :
  Sorted clip_le l -> Sorted clip_le (insert_by_clip x l).
Proof.
  induction l as [|y l IH]; intros Hs; simpl; [repeat constructor|].
  destruct (Z.leb_spec (clip_number x) (clip_number y)) as [Hle|Hgt].
  - constructor; [assumption | constructor; exact Hle].
  - inversion Hs as [|? ? Hs' Hhd]; subst.
    constructor; [apply IH; exact Hs'|].
    apply HdRel_insert_by_clip; [unfold clip_le; lia | exact Hhd].
Qed.

Lemma order_by_clip_sorted l : Sorted clip_le (order_by_clip l).
Proof.
  induction l as [|x l IH]; simpl; [constructor|].
  apply insert_by_clip_sorted, IH.
Qed.

Lemma insert_by_clip_perm x l : Permutation (insert_by_clip x l) (x :: l).
Proof.
  induction l as [|y l IH]; simpl; [reflexivity|].
  destruct (Z.leb (clip_number x) (clip_number y)); [reflexivity|].
  eapply perm_trans; [apply perm_skip, IH | apply perm_swap].
Qed.

Lemma order_by_clip_perm l : Permutation (order_by_clip l) l.
Proof.
  induction l as [|x l IH]; simpl; [reflexivity|].
  eapply perm_trans; [apply insert_by_clip_perm | apply perm_skip, IH].
Qed.

Lemma sorted_firstn {A} (R : A -> A -> Prop) n l :
  Sorted R l -> Sorted R (firstn n l).
Proof.
  revert n; induction l as [|a l IH]; intros n Hs; destruct n as [|n];
    simpl; [constructor | constructor | constructor |].
  inversion Hs as [|? ? Hs' Hhd]; subst. constructor; [apply IH, Hs'|].
  destruct n as [|n], l as [|b l]; simpl; constructor.
  inversion Hhd; assumption.
Qed.

Lemma fetched_urls_app l1 l2 :
  fetched_urls (l1 ++ l2) = fetched_urls l1 ++ fetched_urls l2.
Proof. unfold fetched_urls. apply flat_map_app. Qed.

Lemma fetched_urls_fetches (l : list Sample) :
  fetched_urls (map (fun x => EvFetchSample (sample_url x)) l) = map sample_url l.
Proof. induction l as [|x l IH]; simpl; [reflexivity|]. f_equal. exact IH. Qed.

Lemma fetched_urls_create evs files :
  Forall (is_create_or_wait files) evs -> fetched_urls evs = [].
Proof.
  induction 1 as [|ev evs H _ IH]; [reflexivity|].
  destruct H as [->|(ms & ->)]; exact IH.
Qed.

Lemma fetched_urls_tts evs v text st :
  Forall (is_tts_or_wait v text st) evs -> fetched_urls evs = [].
Proof.
  induction 1 as [|ev evs H _ IH]; [reflexivity|].
  destruct H as [->|(ms & ->)]; exact IH.
Qed.

Lemma fetched_urls_create_cons evs files :
  Forall (is_create_or_wait files) evs ->
  fetched_urls (EvCreateVoice files :: evs) = [].
Proof. intros F. apply (fetched_urls_create _ files). constructor; [left|]; auto. Qed.

Lemma fetched_urls_tts_cons evs v text st :
  Forall (is_tts_or_wait v text st) evs ->
  fetched_urls (EvTts v text st :: evs) = [].
Proof. intros F. apply (fetched_urls_tts _ v text st). constructor; [left|]; auto. Qed.

(* ------------------------------------------------------------------ *)
(** ** Symbolic execution of [serve] *)

Ltac exec := cbv beta iota zeta delta [run_generation serve serve_body catch_handler
  bind ret throw try_catch log db_update get_project get_samples_ordered
  set_local_projectId set_local_voiceId get_locals add_events init_state err
  negb andb nullish db samples_db trace local_projectId local_voiceId].

Ltac frame_create :=
  match goal with |- context [retryWithBackoff wait_ms (create_voice_attempt ?e ?f) 3 2000 ?s] =>
    let E := fresh "E" in let F := fresh "F" in
    destruct (create_retry_first e f s) as (evc & [err|[v|]] & E & F); rewrite E; exec
  end.

Ltac frame_tts :=
  match goal with |- context [retryWithBackoff wait_ms (tts_attempt ?e ?v ?t ?st) 3 2000 ?s] =>
    let E := fresh "E" in let F := fresh "F" in
    destruct (tts_retry_first e v t st s) as (evt & [err|size] & E & F); rewrite E; exec
  end.

Ltac in_solve :=
  first [ apply in_eq
        | simple apply in_or_app; first [ left; in_solve | right; in_solve ]
        | apply in_cons; in_solve ].

(** Split a membership in a symbolic trace into its possible origins. *)
Ltac in_cases H :=
  repeat match type of H with
  | In _ (_ ++ _) => apply in_app_or in H; destruct H as [H|H]
  | In _ (_ :: _) => destruct H as [H|H]
  | In _ [] => destruct H
  | In _ (map _ _) => let y := fresh "y" in apply in_map_iff in H; destruct H as (y & H & _)
  | In ?ev ?evs =>
      match goal with
      | F : Forall _ evs |- _ =>
          apply (proj1 (Forall_forall _ _) F) in H;
          unfold is_create_or_wait, is_tts_or_wait in H;
          let ms := fresh "ms" in destruct H as [H|(ms & H)]
      end
  end;
  try discriminate H.

(** Rewrites the branch conditions fixed so far, until the goal is
    stuck on a new one. *)
Ltac rw_truthy :=
  repeat match goal with H : truthy ?x = _ |- context [truthy ?x] => rewrite H end.

Ltac simp := repeat progress (exec; rw_truthy).

(** Runs every path of [serve] on the row [Some p], calling [finish] at
    each end. *)
Ltac explore env p samples finish :=
  unfold run_generation, serve, try_catch, serve_body;
  assert (Tn : truthy None = false) by reflexivity;
  destruct (request_body env) as [bm|pid] eqn:Hb;
  [ simp; finish | ];
  match goal with |- context [truthy ?q] => destruct (truthy q) eqn:Hpid end;
  simp; [ | finish ];
  destruct (order_by_clip samples) as [|x xs] eqn:Ho; simp; [ finish | ];
  rewrite download_loop_eq; simp; rewrite Nat.add_0_l, app_nil_l;
  match goal with |- context [survivor_indices ?e 0 ?l] =>
    destruct (survivor_indices e 0 l) as [|f fs] eqn:Hsv end;
  [ change (length [] =? 0) with true; simp; finish | ];
  match goal with |- context [length (?a :: ?b) =? 0] =>
    change (length (a :: b) =? 0) with false end;
  simp; frame_create; simp; [ finish | | finish ];
  match goal with |- context [truthy (Some ?w)] => destruct (truthy (Some w)) eqn:Hv end;
  simp; [ | finish ];
  destruct (script_missing (script_text p)) eqn:Hsc; simp; [ finish | ];
  frame_tts; simp; [ finish | ];
  match goal with |- context [?n =? 0] => destruct (n =? 0) eqn:Hz end;
  simp; [ finish | ];
  destruct (upload_error env) as [m|] eqn:Hu; simp; finish.

Ltac voice_cases :=
  let u := fresh "u" in let v := fresh "v" in
  let Hin := fresh "Hin" in let Hset := fresh "Hset" in
  intros u v Hin Hset; in_cases Hin;
  injection Hin as Hin; subst u; simpl in Hset; try discriminate Hset;
  injection Hset as Hset; subst v; in_solve.

Ltac no_record :=
  let u := fresh "u" in let v := fresh "v" in
  let Hin := fresh "Hin" in let Hset := fresh "Hset" in
  intros u Hin v Hset; in_cases Hin;
  injection Hin as Hin; subst u; simpl in Hset; discriminate Hset.

Ltac c1_finish :=
  first
  [ exfalso; congruence
  | eexists; split; [reflexivity|]; split;
    [ first [ left; split; [reflexivity|]; split; [reflexivity|]; eexists; split; reflexivity
            | right; split; [reflexivity|]; split; [eauto|];
              first [ left; reflexivity | right; split; [reflexivity| no_record] ] ]
    | voice_cases ] ].

(** C1: a run on a project row that exists, named by the request, with at
    least one sample and a non-blank script ends either [completed] with
    an audio URL (returned to the caller) and no remote voice id, or
    [failed] with no remote voice id of this run left behind (the id is
    cleared, or is the one the row had before the run, when the run
    recorded none); and every voice id the run recorded in the row has a
    delete call in the trace. *)
Theorem run_generation_releases_voice (env : Env) (p : Project) (samples : list Sample)
  (Hbody : request_body env = BodyJson (Some (id p))) (Hid : id p <> "")
  (Hsamples : samples <> []) (Hscript : script_missing (script_text p) = false) :
  let (s, r) := run_generation env (Some p) samples in
  exists p', db s = Some p' /\
   ((status p' = completed /\ elevenlabs_voice_id p' = None /\
     exists url, generated_audio_url p' = Some url /\ r = Success url)
    \/ (status p' = failed /\ (exists c m, r = Failure c m) /\
        (elevenlabs_voice_id p' = None
         \/ (elevenlabs_voice_id p' = elevenlabs_voice_id p /\
             forall u, In (EvDbUpdate u) (trace s) ->
                       forall v, set_voice_id u <> Some (Some v)))))
   /\ (forall u v, In (EvDbUpdate u) (trace s) -> set_voice_id u = Some (Some v) ->
                  In (EvDeleteVoice v) (trace s)).
Proof.
  assert (Ht : truthy (Some (id p)) = true).
  { simpl. destruct (String.eqb_spec (id p) ""); [contradiction|reflexivity]. }
  assert (Hne : order_by_clip samples <> []).
  { intros E. apply Hsamples, length_zero_iff_nil.
    rewrite <- order_by_clip_length, E. reflexivity. }
  explore env p samples c1_finish.
Qed.

Lemma run_generation_releases_voice_witness :
  request_body demo_env = BodyJson (Some (id demo_project)) /\ id demo_project <> ""
  /\ demo_samples <> [] /\ script_missing (script_text demo_project) = false /\
  let (s, r) := run_generation demo_env (Some demo_project) demo_samples in
  exists p', db s = Some p' /\
   ((status p' = completed /\ elevenlabs_voice_id p' = None /\
     exists url, generated_audio_url p' = Some url /\ r = Success url)
    \/ (status p' = failed /\ (exists c m, r = Failure c m) /\
        (elevenlabs_voice_id p' = None
         \/ (elevenlabs_voice_id p' = elevenlabs_voice_id demo_project /\
             forall u, In (EvDbUpdate u) (trace s) ->
                       forall v, set_voice_id u <> Some (Some v)))))
   /\ (forall u v, In (EvDbUpdate u) (trace s) -> set_voice_id u = Some (Some v) ->
                  In (EvDeleteVoice v) (trace s)).
Proof.
  split; [reflexivity|]. split; [cbv; discriminate|].
  split; [cbv; discriminate|]. split; [reflexivity|].
  apply (run_generation_releases_voice demo_env demo_project demo_samples);
    [reflexivity | cbv; discriminate | cbv; discriminate | reflexivity].
Defined.

(* ------------------------------------------------------------------ *)
(** ** The script check *)





(* ------------------------------------------------------------------ *)
(** ** Voice settings *)

Ltac tts_finish :=
  intros v0 t0 st0 Hin; in_cases Hin;
  injection Hin; intros; congruence.

(** Every synthesize request of a run carries [voice_settings_of] the
    project row read at the start of the run. *)
Lemma run_tts_settings env p samples :
  let (s, r) := run_generation env (Some p) samples in
  forall v t st, In (EvTts v t st) (trace s) -> st = voice_settings_of p.
Proof. explore env p samples tts_finish. Qed.

(** C7: the settings sent to text-to-speech are the stored ones: a stored
    value (0 and [false] included) is sent as it is, and a default
    (0.5, 0.75, 0, [true]) is sent only for a null column. *)
Theorem synthesize_settings_round_trip (env : Env) (p : Project) (samples : list Sample) :
  let (s, r) := run_generation env (Some p) samples in
  forall v t st, In (EvTts v t st) (trace s) ->
    (forall x, voice_stability p = Some x -> stability st = x)
    /\ (voice_stability p = None -> stability st = Qmake 1 2)
    /\ (forall x, voice_similarity_boost p = Some x -> similarity_boost st = x)
    /\ (voice_similarity_boost p = None -> similarity_boost st = Qmake 3 4)
    /\ (forall x, voice_style p = Some x -> style st = x)
    /\ (voice_style p = None -> style st = Qmake 0 1)
    /\ (forall b, voice_speaker_boost p = Some b -> use_speaker_boost st = b)
    /\ (voice_speaker_boost p = None -> use_speaker_boost st = true).
Proof.
  pose proof (run_tts_settings env p samples) as H.
  destruct (run_generation env (Some p) samples) as [s r].
  intros v t st Hin. rewrite (H v t st Hin). unfold voice_settings_of, nullish; simpl.
  repeat split; intros; subst; try reflexivity;
    match goal with E : ?o = _ |- _ => rewrite E; reflexivity end.
Qed.

(* ------------------------------------------------------------------ *)
(** ** Payload assembly *)

Ltac fetched_simpl :=
  repeat rewrite fetched_urls_app;
  repeat match goal with
    | F : Forall (is_create_or_wait ?fl) ?evs |- context [fetched_urls (_ :: ?evs)] =>
        rewrite (fetched_urls_create_cons evs fl F)
    | F : Forall (is_tts_or_wait ?a ?b ?c) ?evs |- context [fetched_urls (_ :: ?evs)] =>
        rewrite (fetched_urls_tts_cons evs a b c F)
    end;
  rewrite fetched_urls_fetches; cbn [fetched_urls flat_map app];
  rewrite ?app_nil_r; reflexivity.

Ltac c8_finish :=
  first
  [ exfalso; congruence
  | split; [fetched_simpl|];
    split; intros Hc;
    first [ exfalso; apply Hc; reflexivity
          | discriminate Hc
          | split; [reflexivity | intros files0 Hin; in_cases Hin]
          | in_solve ] ].

(** C8: on a request for an existing project with at least one sample,
    the run fetches the first 25 samples in clip-number order (a sorted
    rearrangement of the project's samples), one fetch each, whatever the
    outcome of the others; the samples whose download yields a non-empty
    blob are the files sent to createVoice; when none does, the run fails
    with the 'No valid voice samples' error and no createVoice call. *)
Theorem download_samples_in_clip_order (env : Env) (p : Project) (samples : list Sample)
  (Hbody : request_body env = BodyJson (Some (id p))) (Hid : id p <> "")
  (Hsamples : samples <> []) :
  let loaded := firstn 25 (order_by_clip samples) in
  length loaded <= 25 /\ Sorted clip_le loaded
  /\ Permutation (order_by_clip samples) samples /\
  let (s, r) := run_generation env (Some p) samples in
  fetched_urls (trace s) = map sample_url loaded
  /\ (survivor_indices env 0 loaded = [] ->
        r = Failure 500%Z "No valid voice samples could be loaded. Please check your recordings and try again."
        /\ forall files, ~ In (EvCreateVoice files) (trace s))
  /\ (survivor_indices env 0 loaded <> [] ->
        In (EvCreateVoice (survivor_indices env 0 loaded)) (trace s)).
Proof.
  cbv zeta.
  split; [apply firstn_le_length|].
  split; [apply sorted_firstn, order_by_clip_sorted|].
  split; [apply order_by_clip_perm|].
  assert (Ht : truthy (Some (id p)) = true).
  { simpl. destruct (String.eqb_spec (id p) ""); [contradiction|reflexivity]. }
  assert (Hne : order_by_clip samples <> []).
  { intros E. apply Hsamples, length_zero_iff_nil.
    rewrite <- order_by_clip_length, E. reflexivity. }
  explore env p samples c8_finish.
Qed.

Lemma download_samples_in_clip_order_witness :
  request_body demo_env = BodyJson (Some (id demo_project)) /\ id demo_project <> ""
  /\ demo_samples <> [] /\
  let loaded := firstn 25 (order_by_clip demo_samples) in
  length loaded <= 25 /\ Sorted clip_le loaded
  /\ Permutation (order_by_clip demo_samples) demo_samples /\
  let (s, r) := run_generation demo_env (Some demo_project) demo_samples in
  fetched_urls (trace s) = map sample_url loaded
  /\ (survivor_indices demo_env 0 loaded = [] ->
        r = Failure 500%Z "No valid voice samples could be loaded. Please check your recordings and try again."
        /\ forall files, ~ In (EvCreateVoice files) (trace s))
  /\ (survivor_indices demo_env 0 loaded <> [] ->
        In (EvCreateVoice (survivor_indices demo_env 0 loaded)) (trace s)).
Proof.
  split; [reflexivity|]. split; [cbv; discriminate|]. split; [cbv; discriminate|].
  apply (download_samples_in_clip_order demo_env demo_project demo_samples);
    [reflexivity | cbv; discriminate | cbv; discriminate].
Defined.

(* ------------------------------------------------------------------ *)
(** ** Voice parameters *)

Ltac create_finish :=
  first [ exfalso; congruence
        | intros Hc; first [ exfalso; apply Hc; reflexivity | in_solve ] ].

(** A request for an existing project with at least one sample calls
    createVoice with the surviving samples whenever one survives. *)
Lemma run_reaches_create env p samples
  (Hbody : request_body env = BodyJson (Some (id p))) (Hid : id p <> "")
  (Hsamples : samples <> []) :
  let (s, r) := run_generation env (Some p) samples in
  survivor_indices env 0 (firstn 25 (order_by_clip samples)) <> [] ->
  In (EvCreateVoice (survivor_indices env 0 (firstn 25 (order_by_clip samples)))) (trace s).
Proof.
  assert (Ht : truthy (Some (id p)) = true).
  { simpl. destruct (String.eqb_spec (id p) ""); [contradiction|reflexivity]. }
  assert (Hne : order_by_clip samples <> []).
  { intros E. apply Hsamples, length_zero_iff_nil.
    rewrite <- order_by_clip_length, E. reflexivity. }
  explore env p samples create_finish.
Qed.

(** X17: [serve] itself does no range check on the voice parameters:
    for every row, whatever its stored stability, similarity boost and
    style, the run calls createVoice as soon as one sample survives, and
    every synthesize request carries the stored values unchanged.  Only
    the database keeps them in [[0, 1]] (C4). *)
Theorem voice_parameters_not_range_checked (env : Env) (p : Project)
  (samples : list Sample)
  (Hbody : request_body env = BodyJson (Some (id p))) (Hid : id p <> "")
  (Hsamples : samples <> []) :
  let (s, r) := run_generation env (Some p) samples in
  (survivor_indices env 0 (firstn 25 (order_by_clip samples)) <> [] ->
   In (EvCreateVoice (survivor_indices env 0 (firstn 25 (order_by_clip samples)))) (trace s))
  /\ (forall v t st, In (EvTts v t st) (trace s) ->
        (forall x, voice_stability p = Some x -> stability st = x)
        /\ (forall x, voice_similarity_boost p = Some x -> similarity_boost st = x)
        /\ (forall x, voice_style p = Some x -> style st = x)).
Proof.
  pose proof (run_reaches_create env p samples Hbody Hid Hsamples) as Hc.
  pose proof (run_tts_settings env p samples) as Hst.
  destruct (run_generation env (Some p) samples) as [s r].
  split; [exact Hc|].
  intros v t st Hin. rewrite (Hst v t st Hin). unfold voice_settings_of, nullish; simpl.
  repeat split; intros x E; rewrite E; reflexivity.
Qed.

Lemma voice_parameters_not_range_checked_witness :
  request_body demo_env = BodyJson (Some (id demo_project)) /\ id demo_project <> ""
  /\ demo_samples <> [] /\
  let (s, r) := run_generation demo_env (Some demo_project) demo_samples in
  (survivor_indices demo_env 0 (firstn 25 (order_by_clip demo_samples)) <> [] ->
   In (EvCreateVoice (survivor_indices demo_env 0 (firstn 25 (order_by_clip demo_samples))))
      (trace s))
  /\ (forall v t st, In (EvTts v t st) (trace s) ->
        (forall x, voice_stability demo_project = Some x -> stability st = x)
        /\ (forall x, voice_similarity_boost demo_project = Some x -> similarity_boost st = x)
        /\ (forall x, voice_style demo_project = Some x -> style st = x)).
Proof.
  split; [reflexivity|]. split; [cbv; discriminate|]. split; [cbv; discriminate|].
  apply (voice_parameters_not_range_checked demo_env demo_project demo_samples);
    [reflexivity | cbv; discriminate | cbv; discriminate].
Defined.

Lemma check_unit_param_None column o k :
  check_unit_param column o k = None ->
  k = None /\ (forall x, o = Some x -> (0 <= x <= 1)%Q).
Proof.
  unfold check_unit_param, Qltb. destruct o as [x|]; [|intros ->; split; [reflexivity|discriminate]].
  destruct (Qle_bool 0 x) eqn:E0; destruct (Qle_bool x 1) eqn:E1; simpl; try discriminate.
  intros ->. split; [reflexivity|]. intros y Hy. injection Hy as <-.
  apply Qle_bool_iff in E0, E1. split; assumption.
Qed.




(* ------------------------------------------------------------------ *)
(** ** The generation cool-down *)

(** C2: [last_generation_at] is never read.  A second request for
    [demo_project], one minute after its [last_generation_at] (less than
    five minutes), on the row the first request left behind, goes through
    the whole pipeline again: the same database writes, a new createVoice
    call and a new synthesize request, and a success. *)
Theorem second_generation_within_cooldown_runs :
  let (s1, r1) := run_generation demo_env (Some demo_project) demo_samples in
  let (s2, r2) := run_generation demo_env (db s1) demo_samples in
  option_map last_generation_at (db s1) = Some (Some 1000000%Z)
  /\ (now demo_env - 1000000 < 5 * 60 * 1000)%Z
  /\ r2 = Success "https://storage.example/voice-samples/u1/p1_generated.mp3"
  /\ trace s2 =
       [EvDbUpdate (upd_status analyzing);
        EvFetchSample "u1/p1/clip1.webm"; EvFetchSample "u1/p1/clip2.webm";
        EvCreateVoice [0; 1];
        EvDbUpdate (mkUpdate (Some generating) (Some (Some "voice1")) None);
        EvTts "voice1" "Hello there" (mkVoiceSettings (Qmake 1 2) (Qmake 3 4) (Qmake 0 1) true);
        EvUpload "u1/p1_generated.mp3";
        EvDbUpdate (mkUpdate (Some completed) (Some None)
                      (Some (Some "https://storage.example/voice-samples/u1/p1_generated.mp3")));
        EvDeleteVoice "voice1"].
Proof. vm_compute. repeat split; reflexivity. Qed.

(* ------------------------------------------------------------------ *)
(** ** Idempotence of the sweeper *)


Lemma present_remove v' v st :
  present v' (remove_voice v st) = present v' st && negb (String.eqb v' v).
Proof.
  unfold present, remove_voice; simpl. induction (remote st) as [|w ws IH]; simpl.
  - reflexivity.
  - destruct (String.eqb_spec (voice_id w) v) as [->|Hne]; simpl.
    + rewrite IH. destruct (String.eqb_spec v v'); subst.
      * rewrite String.eqb_refl. simpl. rewrite andb_false_r. reflexivity.
      * reflexivity.
    + rewrite IH. destruct (String.eqb_spec (voice_id w) v'); subst; simpl.
      * destruct (String.eqb_spec (voice_id w) v); [contradiction|]. reflexivity.
      * reflexivity.
Qed.

Lemma present_clear env pid v st : present v (clear_voice_id env pid st) = present v st.
Proof. reflexivity. Qed.

Lemma rows_clear env pid st R :
  In R (rows (clear_voice_id env pid st)) -> elevenlabs_voice_id R <> None ->
  In R (rows st) /\ id R <> pid.
Proof.
  simpl. intros HR Hv. apply in_map_iff in HR as (R0 & <- & HR0).
  destruct (String.eqb_spec (id R0) pid) as [E|E].
  - exfalso. apply Hv. reflexivity.
  - split; assumption.
Qed.

Lemma present_In w st : In w (remote st) -> present (voice_id w) st = true.
Proof.
  intros H. unfold present. apply existsb_exists. exists w.
  split; [exact H | apply String.eqb_refl].
Qed.

Lemma project_entries_In env rs pid v :
  In (pid, v) (project_entries env rs) <->
  exists R, In R rs /\ id R = pid /\ elevenlabs_voice_id R = Some v
            /\ stale_or_finished env R = true.
Proof.
  unfold project_entries. rewrite in_flat_map. split.
  - intros (R & HR & Hin). destruct (elevenlabs_voice_id R) as [v'|] eqn:Ev; [|destruct Hin].
    destruct (stale_or_finished env R) eqn:Es; [|destruct Hin].
    destruct Hin as [E|[]]. injection E as <- <-. exists R; auto.
  - intros (R & HR & <- & Ev & Es). exists R. split; [exact HR|].
    rewrite Ev, Es. left; reflexivity.
Qed.

Lemma known_voice_ids_In v rs R :
  In R rs -> elevenlabs_voice_id R = Some v ->
  existsb (String.eqb v) (known_voice_ids rs) = true.
Proof.
  intros HR Ev. apply existsb_exists. exists v. split; [|apply String.eqb_refl].
  unfold known_voice_ids. apply in_flat_map. exists R. rewrite Ev. split; [exact HR | left; reflexivity].
Qed.

Lemma present_remove_true v' v st :
  present v' (remove_voice v st) = true -> present v' st = true.
Proof. rewrite present_remove. intros H. apply andb_true_iff in H. apply H. Qed.

Lemma present_remove_false v' v st :
  present v' st = true -> present v' (remove_voice v st) = false -> v' = v.
Proof.
  rewrite present_remove. intros H1 H2. rewrite H1 in H2. simpl in H2.
  destruct (String.eqb_spec v' v); [assumption | discriminate].
Qed.

Lemma remote_remove w v st : In w (remote (remove_voice v st)) -> In w (remote st).
Proof. simpl. intros H. apply filter_In in H. apply H. Qed.

(** What the project loop leaves behind: rows are only cleared, voices
    only removed, a voice disappears only on a 2xx answer, and a row of
    the loop that still holds a voice id got an answer on which the loop
    does not clear it, also when asked again now. *)
Lemma cleanup_projects_spec env E :
  forall s c f s' c' f', cleanup_projects env E s c f = (s', c', f') ->
  (forall R, In R (rows s') -> elevenlabs_voice_id R <> None -> In R (rows s)) /\
  (forall v, present v s' = true -> present v s = true) /\
  (forall v, present v s = true -> present v s' = false -> del_resp env v true = DelOk) /\
  (forall pid v, In (pid, v) E ->
     (exists R, In R (rows s') /\ id R = pid /\ elevenlabs_voice_id R <> None) ->
     clears (del_resp env v (present v s')) = false) /\
  (forall w, In w (remote s') -> In w (remote s)).
Proof.
  induction E as [|[pid v] E IH]; intros s c f s' c' f' H; simpl in H.
  - injection H as <- <- <-. repeat split; auto.
    + intros v H1 H2. congruence.
    + intros pid v [].
  - unfold delete_voice in H.
    remember (del_resp env v (present v s)) as r0 eqn:Er.
    destruct (is_ok r0) eqn:Hok; [| destruct (is_404 r0) eqn:H404]; simpl in H;
      apply IH in H as (I1 & I2 & I3 & I4 & I5).
    + (* 2xx: the voice is removed and the rows cleared *)
      assert (E0 : r0 = DelOk) by (destruct r0; try discriminate; reflexivity).
      split; [|split; [|split; [|split]]].
      * intros R HR Hv. apply (rows_clear env pid _ R (I1 R HR Hv)) in Hv as [HR' _].
        exact HR'.
      * intros v' Hp. apply I2 in Hp. rewrite present_clear in Hp.
        exact (present_remove_true _ _ _ Hp).
      * intros v' Hp Hp'.
        destruct (present v' (clear_voice_id env pid (remove_voice v s))) eqn:Hm.
        -- exact (I3 v' Hm Hp').
        -- rewrite present_clear in Hm. pose proof (present_remove_false _ _ _ Hp Hm) as ->.
           rewrite Hp in Er. congruence.
      * intros pid' v' [Eh|Ein] (R & HR & Hid & Hv).
        -- injection Eh as <- <-. exfalso.
           apply (rows_clear env pid _ R (I1 R HR Hv)) in Hv as [_ Hne]. contradiction.
        -- apply (I4 pid' v' Ein). exists R; auto.
      * intros w Hw. apply I5 in Hw. exact (remote_remove _ _ _ Hw).
    + (* 404: the rows are cleared *)
      split; [|split; [|split; [|split]]].
      * intros R HR Hv. apply (rows_clear env pid _ R (I1 R HR Hv)) in Hv as [HR' _].
        exact HR'.
      * intros v' Hp. apply I2 in Hp. rewrite present_clear in Hp. exact Hp.
      * intros v' Hp Hp'. apply (I3 v'); [rewrite present_clear; exact Hp | exact Hp'].
      * intros pid' v' [Eh|Ein] (R & HR & Hid & Hv).
        -- injection Eh as <- <-. exfalso.
           apply (rows_clear env pid _ R (I1 R HR Hv)) in Hv as [_ Hne]. contradiction.
        -- apply (I4 pid' v' Ein). exists R; auto.
      * intros w Hw. apply I5 in Hw. exact Hw.
    + (* any other answer: nothing changes *)
      split; [exact I1|]. split; [exact I2|]. split; [exact I3|].
      split; [|exact I5].
      intros pid' v' [Eh|Ein] HR; [|exact (I4 pid' v' Ein HR)].
      injection Eh as <- <-. unfold clears.
      destruct (present v s') eqn:Ps'.
      * rewrite (I2 v Ps') in Er. rewrite <- Er, Hok, H404. reflexivity.
      * destruct (present v s) eqn:Ps.
        -- rewrite (I3 v Ps Ps') in Er. subst r0. discriminate.
        -- rewrite <- Er, Hok, H404. reflexivity.
Qed.

(** What the orphan loop leaves behind: the rows untouched, voices only
    removed, and only on a 2xx answer for a voice not in [known]; a
    candidate voice still there got no 2xx answer. *)
Lemma cleanup_orphans_spec env V known :
  forall s c s' c', cleanup_orphans env V known s c = (s', c') ->
  rows s' = rows s /\
  (forall v, present v s' = true -> present v s = true) /\
  (forall v, present v s = true -> present v s' = false ->
             existsb (String.eqb v) known = false /\ is_ok (del_resp env v true) = true) /\
  (forall w, In w V ->
     startsWith (name w) "Voice_" && negb (existsb (String.eqb (voice_id w)) known) = true ->
     present (voice_id w) s' = true -> is_ok (del_resp env (voice_id w) true) = false) /\
  (forall w, In w (remote s') -> In w (remote s)).
Proof.
  induction V as [|w V IH]; intros s c s' c' H; simpl in H.
  - injection H as <- <-.
    split; [reflexivity|]. split; [auto|]. split; [intros; congruence|].
    split; [intros w []|auto].
  - destruct (startsWith (name w) "Voice_" && negb (existsb (String.eqb (voice_id w)) known))
      eqn:Hc.
    + unfold delete_voice in H.
      remember (del_resp env (voice_id w) (present (voice_id w) s)) as r0 eqn:Er.
      destruct (is_ok r0) eqn:Hok; simpl in H; apply IH in H as (I1 & I2 & I3 & I4 & I5).
      * split; [exact I1|]. split; [|split; [|split]].
        -- intros v' Hp. exact (present_remove_true _ _ _ (I2 v' Hp)).
        -- intros v' Hp Hp'.
           destruct (present v' (remove_voice (voice_id w) s)) eqn:Hm.
           ++ exact (I3 v' Hm Hp').
           ++ pose proof (present_remove_false _ _ _ Hp Hm) as ->.
              apply andb_true_iff in Hc as [_ Hc]. apply negb_true_iff in Hc.
              split; [exact Hc|]. rewrite Hp in Er. rewrite <- Er. exact Hok.
        -- intros w' [<-|Hin] Hc' Hp.
           ++ exfalso. apply I2 in Hp. rewrite present_remove, String.eqb_refl in Hp.
              rewrite andb_false_r in Hp. discriminate.
           ++ exact (I4 w' Hin Hc' Hp).
        -- intros w' Hw. exact (remote_remove _ _ _ (I5 w' Hw)).
      * split; [exact I1|]. split; [exact I2|]. split; [exact I3|]. split; [|exact I5].
        intros w' [<-|Hin] Hc' Hp; [|exact (I4 w' Hin Hc' Hp)].
        rewrite (I2 _ Hp) in Er. rewrite <- Er. exact Hok.
    + apply IH in H as (I1 & I2 & I3 & I4 & I5).
      split; [exact I1|]. split; [exact I2|]. split; [exact I3|]. split; [|exact I5].
      intros w' [<-|Hin] Hc' Hp; [congruence | exact (I4 w' Hin Hc' Hp)].
Qed.

Lemma cleanup_projects_quiet env E s c f :
  (forall pid v, In (pid, v) E -> clears (del_resp env v (present v s)) = false) ->
  cleanup_projects env E s c f = (s, c, f + length E).
Proof.
  revert f; induction E as [|[pid v] E IH]; intros f H; simpl.
  - rewrite Nat.add_0_r. reflexivity.
  - unfold delete_voice.
    pose proof (H pid v (or_introl eq_refl)) as Hq. unfold clears in Hq.
    apply orb_false_iff in Hq as [Hok H404]. rewrite Hok, H404. simpl.
    rewrite IH; [rewrite Nat.add_succ_r; reflexivity|].
    intros pid' v' Hin. exact (H pid' v' (or_intror Hin)).
Qed.

Lemma cleanup_orphans_quiet env V known s c :
  (forall w, In w V ->
     startsWith (name w) "Voice_" && negb (existsb (String.eqb (voice_id w)) known) = true ->
     is_ok (del_resp env (voice_id w) (present (voice_id w) s)) = false) ->
  cleanup_orphans env V known s c = (s, c).
Proof.
  induction V as [|w V IH]; intros H; simpl; [reflexivity|].
  destruct (startsWith (name w) "Voice_" && negb (existsb (String.eqb (voice_id w)) known))
    eqn:Hc.
  - unfold delete_voice. rewrite (H w (or_introl eq_refl) Hc).
    apply IH. intros w' Hin. exact (H w' (or_intror Hin)).
  - apply IH. intros w' Hin. exact (H w' (or_intror Hin)).
Qed.

(** After a sweep, the rows the query selects again all get an answer on
    which the project loop clears nothing. *)
Lemma projects_settled env st sa ca fa sb :
  cleanup_projects env (project_entries env (rows st)) st 0 0 = (sa, ca, fa) ->
  rows sb = rows sa ->
  (forall v, present v sb = true -> present v sa = true) ->
  (forall v, present v sa = true -> present v sb = false ->
             is_ok (del_resp env v true) = true) ->
  forall pid v, In (pid, v) (project_entries env (rows sb)) ->
  clears (del_resp env v (present v sb)) = false.
Proof.
  intros Ha Hrows Hpres Hknown pid v Hin.
  apply cleanup_projects_spec in Ha as (P1 & P2 & P3 & P4 & P5).
  apply project_entries_In in Hin as (R & HR & <- & Ev & Hs).
  rewrite Hrows in HR.
  assert (Hnn : elevenlabs_voice_id R <> None) by congruence.
  assert (Hq : clears (del_resp env v (present v sa)) = false).
  { apply (P4 (id R) v).
    - apply project_entries_In. exists R. split; [exact (P1 R HR Hnn)|]. auto.
    - exists R. auto. }
  destruct (present v sb) eqn:Pb.
  - rewrite (Hpres v Pb) in Hq. exact Hq.
  - destruct (present v sa) eqn:Pa; [|exact Hq].
    pose proof (Hknown v Pa Pb) as Hk. unfold clears in Hq. rewrite Hk in Hq.
    discriminate.
Qed.

(** C9: running the sweep a second time, with the same provider, database
    and clock, changes nothing and cleans nothing; it fails exactly when
    the first run failed, with the same error.  This holds also when the
    voice list cannot be fetched, and when the second [voice_projects]
    query fails (both runs then see no known voice ids): a voice the
    orphan pass deletes got a 2xx answer, so no row the project pass
    kept (it got no clearing answer while that voice was still there)
    holds it. *)
Theorem sweep_idempotent (env : SweepEnv) (st : SweepState) :
  let (st1, r1) := sweep env st in
  let (st2, r2) := sweep env st1 in
  st2 = st1
  /\ (forall cleaned failed, r2 = SweepOk cleaned failed -> cleaned = 0)
  /\ (forall e, r2 = SweepError e <-> r1 = SweepError e).
Proof.
  unfold sweep.
  destruct (negb (truthy (api_key env))); [repeat split; intros; congruence|].
  destruct (query_error env) as [m|]; [repeat split; intros; congruence|].
  destruct (cleanup_projects env (project_entries env (rows st)) st 0 0)
    as [[sa ca] fa] eqn:Ha.
  destruct (list_ok env) eqn:Hl.
  - destruct (cleanup_orphans env (remote sa) (knownVoiceIds env sa) sa ca)
      as [sb cb] eqn:Hb.
    pose proof Hb as Hb'.
    apply cleanup_orphans_spec in Hb' as (Q1 & Q2 & Q3 & Q4 & Q5).
    rewrite (cleanup_projects_quiet env _ sb 0 0
               (projects_settled env st sa ca fa sb Ha Q1 Q2
                  (fun v H1 H2 => proj2 (Q3 v H1 H2)))).
    assert (Hk : knownVoiceIds env sb = knownVoiceIds env sa)
      by (unfold knownVoiceIds; rewrite Q1; reflexivity).
    rewrite cleanup_orphans_quiet.
    + repeat split; intros; congruence.
    + intros w Hw Hc. rewrite (present_In w sb Hw).
      apply (Q4 w (Q5 w Hw)); [rewrite <- Hk; exact Hc | exact (present_In w sb Hw)].
  - rewrite (cleanup_projects_quiet env _ sa 0 0
               (projects_settled env st sa ca fa sa Ha eq_refl (fun v H => H)
                  (fun v H1 H2 => ltac:(congruence)))).
    repeat split; intros; congruence.
Qed.
(* ------------------------------------------------------------------ *)
(** ** Further properties of the orchestrator, its callers and the sweeper *)

(** X1: the HTTP status the catch block answers for a provider error
    classified by [handleElevenLabsError]: an invalid API key (401)
    becomes 422 (its message contains "invalid"), an exhausted quota (402)
    and a rate limit (429) become 402, an outage (500, 502, 503) becomes
    500, and a 422 becomes 422 only when the provider message mentions
    audio, 500 otherwise. *)
Theorem provider_error_client_status (errorMessage operation : string) :
  status_code_of (handleElevenLabsError_message 401 errorMessage operation) = 422%Z
  /\ status_code_of (handleElevenLabsError_message 402 errorMessage operation) = 402%Z
  /\ status_code_of (handleElevenLabsError_message 429 errorMessage operation) = 402%Z
  /\ (forall code, In code [500; 502; 503]%Z ->
        status_code_of (handleElevenLabsError_message code errorMessage operation) = 500%Z)
  /\ status_code_of (handleElevenLabsError_message 422 errorMessage operation)
     = (if includes (toLowerCase errorMessage) "audio" then 422 else 500)%Z.
Proof.
  split; [reflexivity|]. split; [reflexivity|]. split; [reflexivity|].
  split.
  - intros code [<-|[<-|[<-|[]]]]; reflexivity.
  - unfold handleElevenLabsError_message.
    destruct (includes (toLowerCase errorMessage) "audio"); reflexivity.
Qed.

(** Back-off waits of the retry trace. *)
Lemma waited_app l1 l2 : waited (l1 ++ l2) = waited l1 + waited l2.
Proof.
  induction l1 as [|[k|ms] l1 IH]; simpl; [reflexivity | exact IH | rewrite IH; lia].
Qed.

Lemma waited_failed_attempts d n : waited (failed_attempts d 0 n) + d = d * 2 ^ n.
Proof.
  induction n as [|n IH].
  - simpl. lia.
  - unfold failed_attempts in *. rewrite seq_S, flat_map_app, waited_app, Nat.pow_succ_r'.
    cbn [flat_map waited app]. rewrite Nat.add_0_l. nia.
Qed.

(** X2: [retryWithBackoff] with [maxRetries >= 1] waits in total at most
    [initialDelay * (2^(maxRetries-1) - 1)] ms (no wait after the last
    attempt), and exactly that when every attempt fails. *)
Theorem retryWithBackoff_total_wait {A} (outcome : nat -> Error + A)
  (maxRetries initialDelay : nat) (Hm : 1 <= maxRetries) :
  waited (fst (traced_retry outcome maxRetries initialDelay))
    <= initialDelay * (2 ^ (maxRetries - 1) - 1)
  /\ ((forall i, i < maxRetries -> is_err (outcome i) = true) ->
      waited (fst (traced_retry outcome maxRetries initialDelay))
      = initialDelay * (2 ^ (maxRetries - 1) - 1)).
Proof.
  unfold traced_retry, retryWithBackoff.
  destruct (retry_loop_spec outcome maxRetries initialDelay maxRetries 0 [] None
              ltac:(lia) Hm) as (k & Hk & Hb & He & E).
  rewrite E. simpl fst. rewrite waited_app, Nat.sub_0_r. simpl waited.
  pose proof (waited_failed_attempts initialDelay k) as W.
  rewrite Nat.mul_sub_distr_l, Nat.mul_1_r.
  split.
  - assert (P : 2 ^ k <= 2 ^ (maxRetries - 1)) by (apply Nat.pow_le_mono_r; lia).
    apply (Nat.mul_le_mono_l _ _ initialDelay) in P. lia.
  - intros Hall. destruct He as [->|He]; [lia|].
    rewrite Hall in He by lia. discriminate.
Qed.

Lemma retryWithBackoff_total_wait_witness :
  1 <= 3 /\
  waited (fst (traced_retry (fun _ => auth_failure) 3 2000)) <= 2000 * (2 ^ (3 - 1) - 1)
  /\ ((forall i, i < 3 -> is_err (auth_failure) = true) ->
      waited (fst (traced_retry (fun _ => auth_failure) 3 2000)) = 2000 * (2 ^ (3 - 1) - 1)).
Proof. split; [lia|]. apply (retryWithBackoff_total_wait (fun _ => auth_failure) 3 2000). lia. Defined.

(** The exact trace of a retried step that logs one event per attempt:
    the failed attempts before the [k]-th, each with its wait, then the
    [k]-th, whose outcome is the result. *)
Lemma retry_loop_exact {A} (fn : nat -> M OState A) ev (outc : nat -> Error + A)
  (Hfn : forall k s, fn k s = (add_events s [ev], outc k)) (m d : nat) :
  forall fuel attempt last s, attempt + fuel = m -> 1 <= fuel ->
  exists k, attempt <= k < m
    /\ (forall i, attempt <= i < k -> is_err (outc i) = true)
    /\ (k = m - 1 \/ is_err (outc k) = false)
    /\ retry_loop wait_ms fn m d attempt fuel last s
       = (add_events s (backoff_events ev d attempt (k - attempt) ++ [ev]), outc k).
Proof.
  induction fuel as [|fuel IH]; intros attempt last s Hsum Hf; [lia|].
  cbn [retry_loop]. unfold try_catch. rewrite Hfn.
  destruct (outc attempt) as [e|a] eqn:Ho.
  - unfold bind. destruct fuel as [|fuel'].
    + exists attempt. split; [lia|]. split; [intros; lia|]. split; [left; lia|].
      assert (Hlt : (attempt <? m - 1) = false) by (apply Nat.ltb_ge; lia).
      rewrite Hlt. cbn [retry_loop]. unfold ret, throw. rewrite Nat.sub_diag, Ho.
      reflexivity.
    + assert (Hlt : (attempt <? m - 1) = true) by (apply Nat.ltb_lt; lia).
      rewrite Hlt. unfold wait_ms, log. cbv beta iota zeta.
      destruct (IH (S attempt) (Some e)
                  (add_events (add_events s [ev]) [EvWait (d * 2 ^ attempt)])
                  ltac:(lia) ltac:(lia)) as (k & Hk & Hbefore & Hend & Hrun).
      exists k. split; [lia|]. split.
      * intros i Hi. destruct (Nat.eq_dec i attempt) as [->|Hne].
        -- rewrite Ho; reflexivity.
        -- apply Hbefore; lia.
      * split; [exact Hend|].
        refine (eq_trans Hrun _). rewrite !add_events_app.
        replace (k - attempt) with (S (k - S attempt)) by lia.
        unfold backoff_events. cbn [seq flat_map]. reflexivity.
  - exists attempt. split; [lia|]. split; [intros; lia|].
    split; [right; rewrite Ho; reflexivity|].
    rewrite Nat.sub_diag, Ho. reflexivity.
Qed.

Lemma create_retry_exact env files s :
  exists k, k < 3
    /\ (forall i, i < k -> is_err (create_outcome env i) = true)
    /\ (k = 2 \/ is_err (create_outcome env k) = false)
    /\ retryWithBackoff wait_ms (create_voice_attempt env files) 3 2000 s
       = (add_events s (backoff_events (EvCreateVoice files) 2000 0 k
                        ++ [EvCreateVoice files]), create_outcome env k).
Proof.
  destruct (retry_loop_exact (create_voice_attempt env files) (EvCreateVoice files)
              (create_outcome env)) with (m := 3) (d := 2000) (fuel := 3) (attempt := 0)
              (last := @None Error) (s := s) as (k & Hk & Hb & He & E); try lia.
  - intros k s0. unfold create_voice_attempt, create_outcome, bind, log.
    destruct (create_voice_resp env k); reflexivity.
  - exists k. split; [lia|]. split; [intros i Hi; apply Hb; lia|].
    split; [exact He|]. rewrite Nat.sub_0_r in E. exact E.
Qed.

Lemma tts_retry_exact env v text st s :
  exists k, k < 3
    /\ (forall i, i < k -> is_err (tts_outcome env i) = true)
    /\ (k = 2 \/ is_err (tts_outcome env k) = false)
    /\ retryWithBackoff wait_ms (tts_attempt env v text st) 3 2000 s
       = (add_events s (backoff_events (EvTts v text st) 2000 0 k
                        ++ [EvTts v text st]), tts_outcome env k).
Proof.
  destruct (retry_loop_exact (tts_attempt env v text st) (EvTts v text st)
              (tts_outcome env)) with (m := 3) (d := 2000) (fuel := 3) (attempt := 0)
              (last := @None Error) (s := s) as (k & Hk & Hb & He & E); try lia.
  - intros k s0. unfold tts_attempt, tts_outcome, bind, log.
    destruct (tts_resp env k); reflexivity.
  - exists k. split; [lia|]. split; [intros i Hi; apply Hb; lia|].
    split; [exact He|]. rewrite Nat.sub_0_r in E. exact E.
Qed.

(** X4: when every voice-creation attempt answers the same HTTP error, a
    run on an existing row with a surviving sample makes exactly three
    creation attempts, 2 s and 4 s apart, then marks the row [failed]
    without ever recording or deleting a voice.  It answers with the
    message of the error [handleElevenLabsError] ends with, and the
    status [status_code_of] gives that message: for a JSON body the
    classified message (X1 lists the statuses), for a body
    [response.json()] cannot read the runtime's [TypeError] from the
    second read, [response.text()]. *)
Theorem create_http_error_fails_run (env : Env) (p : Project) (samples : list Sample)
  (code : Z) (body : ErrorBody)
  (Hbody : request_body env = BodyJson (Some (id p))) (Hid : id p <> "")
  (Hresp : forall k, create_voice_resp env k = RespHttpError code body)
  (Hsv : survivor_indices env 0 (firstn 25 (order_by_clip samples)) <> []) :
  let files := survivor_indices env 0 (firstn 25 (order_by_clip samples)) in
  let msg := message (provider_error code body "voice creation") in
  run_generation env (Some p) samples =
  (mkOState (Some (apply_update (now env) (upd_status failed)
                     (apply_update (now env) (upd_status analyzing) p)))
            samples
            (EvDbUpdate (upd_status analyzing)
             :: map (fun x => EvFetchSample (sample_url x)) (firstn 25 (order_by_clip samples))
             ++ [EvCreateVoice files; EvWait 2000; EvCreateVoice files; EvWait 4000;
                 EvCreateVoice files; EvDbUpdate (upd_status failed)])
            (Some (id p)) None,
   Failure (status_code_of msg) msg).
Proof.
  cbv zeta.
  assert (Ht : truthy (Some (id p)) = true).
  { simpl. destruct (String.eqb_spec (id p) ""); [contradiction|reflexivity]. }
  assert (Tn : truthy None = false) by reflexivity.
  unfold run_generation, serve, try_catch, serve_body. rewrite Hbody. simp.
  destruct (order_by_clip samples) as [|x xs] eqn:Ho.
  { exfalso. apply Hsv. reflexivity. }
  simp. rewrite download_loop_eq. simp. rewrite Nat.add_0_l, app_nil_l.
  destruct (survivor_indices env 0 (firstn 25 (x :: xs))) as [|f fs] eqn:Hs;
    [contradiction|].
  change (length (f :: fs) =? 0) with false. simp.
  match goal with |- context [retryWithBackoff wait_ms (create_voice_attempt ?e ?fl) 3 2000 ?s] =>
    destruct (create_retry_exact e fl s) as (k & Hk & Hb & He & E) end.
  assert (Hk2 : k = 2).
  { destruct He as [He|He]; [exact He|].
    unfold create_outcome in He. rewrite Hresp in He. discriminate. }
  subst k. rewrite E. unfold create_outcome. rewrite Hresp.
  simp. unfold backoff_events. cbn [seq flat_map app]. rewrite <- !app_assoc.
  reflexivity.
Qed.

Lemma create_http_error_fails_run_witness :
  request_body rejecting_env = BodyJson (Some (id demo_project))
  /\ id demo_project <> ""
  /\ (forall k, create_voice_resp rejecting_env k
                = RespHttpError 401%Z (JsonMessage "invalid_api_key"))
  /\ survivor_indices rejecting_env 0 (firstn 25 (order_by_clip demo_samples)) <> []
  /\ let files := survivor_indices rejecting_env 0 (firstn 25 (order_by_clip demo_samples)) in
     let msg := message (provider_error 401 (JsonMessage "invalid_api_key") "voice creation") in
     run_generation rejecting_env (Some demo_project) demo_samples =
     (mkOState (Some (apply_update (now rejecting_env) (upd_status failed)
                        (apply_update (now rejecting_env) (upd_status analyzing) demo_project)))
               demo_samples
               (EvDbUpdate (upd_status analyzing)
                :: map (fun x => EvFetchSample (sample_url x))
                     (firstn 25 (order_by_clip demo_samples))
                ++ [EvCreateVoice files; EvWait 2000; EvCreateVoice files; EvWait 4000;
                    EvCreateVoice files; EvDbUpdate (upd_status failed)])
               (Some (id demo_project)) None,
      Failure (status_code_of msg) msg).
Proof.
  split; [reflexivity|]. split; [cbv; discriminate|]. split; [reflexivity|].
  split; [cbv; discriminate|].
  apply (create_http_error_fails_run rejecting_env demo_project demo_samples 401%Z
           (JsonMessage "invalid_api_key"));
    [reflexivity | cbv; discriminate | reflexivity | cbv; discriminate].
Defined.

(** A request for an existing row with no samples. *)
Lemma run_no_samples_eq (env : Env) (p : Project)
  (Hbody : request_body env = BodyJson (Some (id p))) (Hid : id p <> "") :
  run_generation env (Some p) [] =
  (mkOState (Some (apply_update (now env) (upd_status failed) p)) []
            [EvDbUpdate (upd_status failed)] (Some (id p)) None,
   Failure 500 "No voice samples found for this project").
Proof.
  assert (Ht : truthy (Some (id p)) = true).
  { simpl. destruct (String.eqb_spec (id p) ""); [contradiction|reflexivity]. }
  assert (Tn : truthy None = false) by reflexivity.
  unfold run_generation, serve, try_catch, serve_body. rewrite Hbody.
  simp. cbn [order_by_clip]. simp. reflexivity.
Qed.

(** X5: a request for an existing row that has no samples writes
    [failed] to the row, makes no other call, and answers 500 with
    "No voice samples found for this project". *)
Theorem run_without_samples (env : Env) (p : Project)
  (Hbody : request_body env = BodyJson (Some (id p))) (Hid : id p <> "") :
  run_generation env (Some p) [] =
  (mkOState (Some (apply_update (now env) (upd_status failed) p)) []
            [EvDbUpdate (upd_status failed)] (Some (id p)) None,
   Failure 500 "No voice samples found for this project").
Proof. exact (run_no_samples_eq env p Hbody Hid). Qed.

Lemma run_without_samples_witness :
  request_body demo_env = BodyJson (Some (id demo_project)) /\ id demo_project <> "" /\
  run_generation demo_env (Some demo_project) [] =
  (mkOState (Some (apply_update (now demo_env) (upd_status failed) demo_project)) []
            [EvDbUpdate (upd_status failed)] (Some (id demo_project)) None,
   Failure 500 "No voice samples found for this project").
Proof.
  split; [reflexivity|]. split; [cbv; discriminate|].
  apply run_without_samples; [reflexivity | cbv; discriminate].
Defined.

(** X6: the requests rejected before any row is read: an unparsable body
    is answered with the status of its parse error and nothing written;
    a missing or empty [projectId] is answered 500 "Project ID is
    required" with nothing written; a project id without a row is
    answered 500 "Project not found" after one [failed] update (which
    matches no row). *)
Theorem run_without_existing_project (env : Env) (row : option Project) (samples : list Sample) :
  (forall m, request_body env = BodyInvalid m ->
     run_generation env row samples
     = (init_state row samples, Failure (status_code_of m) m))
  /\ (forall pid, request_body env = BodyJson pid -> truthy pid = false ->
     run_generation env row samples
     = (mkOState row samples [] pid None, Failure 500 "Project ID is required"))
  /\ (forall pid, request_body env = BodyJson pid -> truthy pid = true -> row = None ->
     run_generation env row samples
     = (mkOState None samples [EvDbUpdate (upd_status failed)] pid None,
        Failure 500 "Project not found")).
Proof.
  assert (Tn : truthy None = false) by reflexivity.
  unfold run_generation, serve, try_catch, serve_body.
  split; [|split].
  - intros m Hb. rewrite Hb. simp. reflexivity.
  - intros pid Hb Hp. rewrite Hb. simp. reflexivity.
  - intros pid Hb Hp ->. rewrite Hb. simp. reflexivity.
Qed.

(** X7: when no downloaded sample yields a non-empty blob, the run writes
    [analyzing], fetches the first 25 samples in clip order, writes
    [failed], and answers 500 "No valid voice samples could be
    loaded..." without calling the provider. *)
Theorem run_no_loadable_samples (env : Env) (p : Project) (samples : list Sample)
  (Hbody : request_body env = BodyJson (Some (id p))) (Hid : id p <> "")
  (Hne : samples <> [])
  (Hsv : survivor_indices env 0 (firstn 25 (order_by_clip samples)) = []) :
  run_generation env (Some p) samples =
  (mkOState (Some (apply_update (now env) (upd_status failed)
                     (apply_update (now env) (upd_status analyzing) p)))
            samples
            (EvDbUpdate (upd_status analyzing)
             :: map (fun x => EvFetchSample (sample_url x)) (firstn 25 (order_by_clip samples))
             ++ [EvDbUpdate (upd_status failed)])
            (Some (id p)) None,
   Failure 500 "No valid voice samples could be loaded. Please check your recordings and try again.").
Proof.
  assert (Ht : truthy (Some (id p)) = true).
  { simpl. destruct (String.eqb_spec (id p) ""); [contradiction|reflexivity]. }
  assert (Tn : truthy None = false) by reflexivity.
  assert (Hno : order_by_clip samples <> []).
  { intros E. apply Hne, length_zero_iff_nil.
    rewrite <- order_by_clip_length, E. reflexivity. }
  unfold run_generation, serve, try_catch, serve_body. rewrite Hbody. simp.
  destruct (order_by_clip samples) as [|x xs] eqn:Ho; [contradiction|].
  simp. rewrite download_loop_eq. simp. rewrite Nat.add_0_l, app_nil_l, Hsv.
  change (length (@nil nat) =? 0) with true. simp. cbn [app].
  rewrite <- ?app_assoc. reflexivity.
Qed.

Lemma run_no_loadable_samples_witness :
  request_body unreachable_samples_env = BodyJson (Some (id demo_project))
  /\ id demo_project <> "" /\ demo_samples <> []
  /\ survivor_indices unreachable_samples_env 0 (firstn 25 (order_by_clip demo_samples)) = []
  /\ run_generation unreachable_samples_env (Some demo_project) demo_samples =
  (mkOState (Some (apply_update (now unreachable_samples_env) (upd_status failed)
                     (apply_update (now unreachable_samples_env) (upd_status analyzing)
                        demo_project)))
            demo_samples
            (EvDbUpdate (upd_status analyzing)
             :: map (fun x => EvFetchSample (sample_url x))
                  (firstn 25 (order_by_clip demo_samples))
             ++ [EvDbUpdate (upd_status failed)])
            (Some (id demo_project)) None,
   Failure 500 "No valid voice samples could be loaded. Please check your recordings and try again.").
Proof.
  split; [reflexivity|]. split; [cbv; discriminate|]. split; [cbv; discriminate|].
  split; [reflexivity|].
  apply run_no_loadable_samples;
    [reflexivity | cbv; discriminate | cbv; discriminate | reflexivity].
Defined.

(* ------------------------------------------------------------------ *)
(** ** How much a run does *)
Lemma count_ev_app f l1 l2 : count_ev f (l1 ++ l2) = count_ev f l1 + count_ev f l2.
Proof. induction l1 as [|x l1 IH]; simpl; [reflexivity|rewrite IH; lia]. Qed.

Lemma count_ev_fetches f (l : list Sample) :
  (forall u, f (EvFetchSample u) = f (EvFetchSample "")) ->
  count_ev f (map (fun x => EvFetchSample (sample_url x)) l)
  = if f (EvFetchSample "") then length l else 0.
Proof.
  intros Hf. induction l as [|x l IH]; simpl; [destruct (f (EvFetchSample "")); reflexivity|].
  rewrite Hf, IH. destruct (f (EvFetchSample "")); reflexivity.
Qed.

Lemma count_ev_backoff f ev d a n :
  (forall ms, f (EvWait ms) = false) ->
  count_ev f (backoff_events ev d a n) = if f ev then n else 0.
Proof.
  intros Hf. revert a. induction n as [|n IH]; intros a; unfold backoff_events in *; simpl;
    [destruct (f ev); reflexivity|].
  rewrite Hf, IH. destruct (f ev); reflexivity.
Qed.

Lemma wait_total_app l1 l2 : wait_total (l1 ++ l2) = wait_total l1 + wait_total l2.
Proof.
  induction l1 as [|[] l1 IH]; simpl; try rewrite IH; lia.
Qed.

Lemma wait_total_fetches (l : list Sample) :
  wait_total (map (fun x => EvFetchSample (sample_url x)) l) = 0.
Proof. induction l; simpl; auto. Qed.

Lemma wait_backoff_le ev k :
  (forall ms, ev <> EvWait ms) -> k < 3 ->
  wait_total (backoff_events ev 2000 0 k) <= 3 * 2000.
Proof.
  intros Hev Hk. destruct ev; try (exfalso; eapply Hev; reflexivity);
  (destruct k as [|[|[|k]]]; [| | | lia]; unfold backoff_events; simpl; lia).
Qed.

Ltac frame_create_x :=
  match goal with |- context [retryWithBackoff wait_ms (create_voice_attempt ?e ?f) 3 2000 ?s] =>
    let E := fresh "E" in let kc := fresh "kc" in let Hkc := fresh "Hkc" in
    destruct (create_retry_exact e f s) as (kc & Hkc & _ & _ & E); rewrite E;
    pose proof (wait_backoff_le (EvCreateVoice f) kc ltac:(intros ? ?; discriminate) Hkc);
    destruct (create_outcome e kc) as [err|[v|]]; exec
  end.

Ltac frame_tts_x :=
  match goal with |- context [retryWithBackoff wait_ms (tts_attempt ?e ?v ?t ?st) 3 2000 ?s] =>
    let E := fresh "E" in let kt := fresh "kt" in let Hkt := fresh "Hkt" in
    destruct (tts_retry_exact e v t st s) as (kt & Hkt & _ & _ & E); rewrite E;
    pose proof (wait_backoff_le (EvTts v t st) kt ltac:(intros ? ?; discriminate) Hkt);
    destruct (tts_outcome e kt) as [err|size]; exec
  end.

Ltac explore_x env p samples finish :=
  unfold run_generation, serve, try_catch, serve_body;
  assert (Tn : truthy None = false) by reflexivity;
  destruct (request_body env) as [bm|pid] eqn:Hb;
  [ simp; finish | ];
  match goal with |- context [truthy ?q] => destruct (truthy q) eqn:Hpid end;
  simp; [ | finish ];
  destruct (order_by_clip samples) as [|x xs] eqn:Ho; simp; [ finish | ];
  rewrite download_loop_eq; simp; rewrite Nat.add_0_l, app_nil_l;
  match goal with |- context [survivor_indices ?e 0 ?l] =>
    destruct (survivor_indices e 0 l) as [|f fs] eqn:Hsv end;
  [ change (length [] =? 0) with true; simp; finish | ];
  match goal with |- context [length (?a :: ?b) =? 0] =>
    change (length (a :: b) =? 0) with false end;
  simp; frame_create_x; simp; [ finish | | finish ];
  match goal with |- context [truthy (Some ?w)] => destruct (truthy (Some w)) eqn:Hv end;
  simp; [ | finish ];
  destruct (script_missing (script_text p)) eqn:Hsc; simp; [ finish | ];
  frame_tts_x; simp; [ finish | ];
  match goal with |- context [?n =? 0] => destruct (n =? 0) eqn:Hz end;
  simp; [ finish | ];
  destruct (upload_error env) as [m|] eqn:Hu; simp; finish.

Ltac bounds_finish :=
  repeat rewrite ?count_ev_app, ?wait_total_app;
  rewrite ?count_ev_fetches by (intros; reflexivity);
  rewrite ?count_ev_backoff by (intros; reflexivity);
  rewrite ?wait_total_fetches;
  cbn [count_ev wait_total is_create_ev is_tts_ev is_fetch_ev is_delete_ev is_db_ev];
  try match goal with |- context [length (firstn 25 ?l)] =>
    pose proof (firstn_le_length 25 l) end;
  repeat split; lia.

(** X3: whatever the request, the row and the answers of the outside
    world, a run fetches at most 25 samples, calls voice creation at most
    3 times and text-to-speech at most 3 times, deletes at most one voice,
    writes the row at most 3 times, and spends at most 12 s in back-off
    waits. *)
Theorem run_generation_call_bounds (env : Env) (row : option Project) (samples : list Sample) :
  let (s, r) := run_generation env row samples in
  count_ev is_fetch_ev (trace s) <= 25 /\ count_ev is_create_ev (trace s) <= 3
  /\ count_ev is_tts_ev (trace s) <= 3 /\ count_ev is_delete_ev (trace s) <= 1
  /\ count_ev is_db_ev (trace s) <= 3
  /\ wait_total (trace s) <= 2 * (2000 + 4000).
Proof.
  destruct row as [p|].
  - explore_x env p samples bounds_finish.
  - unfold run_generation, serve, try_catch, serve_body.
    assert (Tn : truthy None = false) by reflexivity.
    destruct (request_body env) as [bm|pid]; simp; [cbn; lia|].
    destruct (truthy pid) eqn:Hp; simp; cbn; lia.
Qed.

(* ------------------------------------------------------------------ *)
(** ** [trim] is idempotent *)
Lemma str_app_assoc (a b c : string) : ((a ++ b) ++ c = a ++ (b ++ c))%string.
Proof. induction a as [|x a IH]; simpl; [reflexivity|rewrite IH; reflexivity]. Qed.

Lemma str_app_nil_r (a : string) : (a ++ "")%string = a.
Proof. induction a as [|x a IH]; simpl; [reflexivity|rewrite IH; reflexivity]. Qed.

Lemma rev_string_app a b : rev_string (a ++ b) = (rev_string b ++ rev_string a)%string.
Proof.
  induction a as [|x a IH]; simpl.
  - rewrite str_app_nil_r. reflexivity.
  - rewrite IH, str_app_assoc. reflexivity.
Qed.

Lemma rev_string_involutive s : rev_string (rev_string s) = s.
Proof.
  induction s as [|x s IH]; simpl; [reflexivity|].
  rewrite rev_string_app, IH. reflexivity.
Qed.

Lemma str_length_app (a b : string) :
  String.length (a ++ b) = String.length a + String.length b.
Proof. induction a as [|x a IH]; simpl; [reflexivity|rewrite IH; reflexivity]. Qed.

Lemma rev_string_length s : String.length (rev_string s) = String.length s.
Proof.
  induction s as [|x s IH]; simpl; [reflexivity|].
  rewrite str_length_app, IH. simpl. lia.
Qed.

Lemma trim_start_good s : good_head (trim_start s) = true.
Proof.
  induction s as [|c s IH]; simpl; [reflexivity|].
  destruct (is_ws c) eqn:E; [exact IH|simpl; rewrite E; reflexivity].
Qed.

Lemma trim_start_fix s : good_head s = true -> trim_start s = s.
Proof.
  destruct s as [|c s]; simpl; [reflexivity|].
  intros H. destruct (is_ws c); [discriminate|reflexivity].
Qed.

Lemma trim_start_split s : exists pre, s = (pre ++ trim_start s)%string.
Proof.
  induction s as [|c s (pre & IH)]; simpl; [exists ""; reflexivity|].
  destruct (is_ws c).
  - exists (String c pre). simpl. rewrite <- IH. reflexivity.
  - exists "". reflexivity.
Qed.

Lemma good_head_app a b : a <> "" -> good_head (a ++ b)%string = good_head a.
Proof. destruct a; [contradiction|reflexivity]. Qed.

Lemma trim_idempotent s : trim (trim s) = trim s.
Proof.
  unfold trim at 2.
  set (u := trim_start s). set (w := trim_start (rev_string u)).
  destruct (trim_start_split (rev_string u)) as (pre & Hv). fold w in Hv.
  assert (Hg : good_head (rev_string w) = true).
  { destruct (string_dec w "") as [->|Hne]; [reflexivity|].
    assert (Hu : u = (rev_string w ++ rev_string pre)%string).
    { rewrite <- (rev_string_involutive u), Hv, rev_string_app. reflexivity. }
    rewrite <- (good_head_app (rev_string w) (rev_string pre)).
    - rewrite <- Hu. apply trim_start_good.
    - intros E. apply Hne.
      apply (f_equal String.length) in E. rewrite rev_string_length in E.
      destruct w; [reflexivity|discriminate]. }
  unfold trim. rewrite (trim_start_fix _ Hg), rev_string_involutive.
  rewrite (trim_start_fix w) by apply trim_start_good. reflexivity.
Qed.

(* ------------------------------------------------------------------ *)
(** ** The generate dialog and the trigger *)
Ltac payload_finish :=
  intros v0 t0 st0 Hin; in_cases Hin; injection Hin; intros; split; congruence.

(** Every synthesize request sends the row's script and settings. *)
Lemma run_tts_payload env p samples :
  let (s, r) := run_generation env (Some p) samples in
  forall v t st, In (EvTts v t st) (trace s) ->
    t = nullish (script_text p) "" /\ st = voice_settings_of p.
Proof. explore env p samples payload_finish. Qed.

Ltac reach_finish :=
  first [ exfalso; congruence
        | intros v0 Hin; in_cases Hin; injection Hin as Hin; subst; in_solve ].

(** With a script, a run that records a voice synthesizes with it. *)
Lemma run_generating_reaches_tts env p samples
  (Hscript : script_missing (script_text p) = false) :
  let (s, r) := run_generation env (Some p) samples in
  forall v, In (EvDbUpdate (mkUpdate (Some generating) (Some (Some v)) None)) (trace s) ->
    In (EvTts v (nullish (script_text p) "") (voice_settings_of p)) (trace s).
Proof. explore env p samples reach_finish. Qed.

Lemma handleGenerate_checks_submit s a b c boost t st :
  handleGenerate_checks s a b c boost = GenSubmit t st ->
  t = trim s /\ st = mkVoiceSettings a b c boost /\ String.eqb (trim s) "" = false.
Proof.
  unfold handleGenerate_checks.
  destruct (String.eqb (trim s) "") eqn:E1; [discriminate|].
  destruct (10000 <? Z.of_nat (String.length (trim s)))%Z; [discriminate|].
  match goal with |- context [if ?c then _ else _] => destruct c end; [discriminate|].
  intros H; injection H as <- <-. auto.
Qed.

(** X8: when [handleGenerate] submits, the run it starts synthesizes
    exactly the trimmed script and the four parameters chosen in the
    dialog, and once the run has recorded a voice it sends that request
    with that voice. *)
Theorem handleGenerate_sends_dialog_values (env : Env) (projectId scriptText : string)
  (stab sim sty : Q) (boost : bool) (p : Project) (samples : list Sample) :
  match handleGenerate env projectId scriptText stab sim sty boost (Some p) samples with
  | (GenToast _, None) => True
  | (GenSubmit script st, Some (s, r)) =>
      script = trim scriptText /\ st = mkVoiceSettings stab sim sty boost
      /\ (forall v t st', In (EvTts v t st') (trace s) ->
            t = trim scriptText /\ st' = mkVoiceSettings stab sim sty boost)
      /\ (forall v, In (EvDbUpdate (mkUpdate (Some generating) (Some (Some v)) None)) (trace s) ->
            In (EvTts v (trim scriptText) (mkVoiceSettings stab sim sty boost)) (trace s))
  | _ => False
  end.
Proof.
  unfold handleGenerate.
  destruct (handleGenerate_checks scriptText stab sim sty boost) as [title|t st] eqn:Hc;
    [exact I|].
  destruct (handleGenerate_checks_submit _ _ _ _ _ _ _ Hc) as (-> & -> & Hne).
  cbn [option_map].
  set (p' := dialog_update (now env) (trim scriptText) (mkVoiceSettings stab sim sty boost) p).
  set (env' := with_body env (BodyJson (Some projectId))).
  pose proof (run_tts_payload env' p' samples) as Hp.
  assert (Hsc : script_missing (script_text p') = false).
  { simpl. rewrite trim_idempotent. exact Hne. }
  pose proof (run_generating_reaches_tts env' p' samples Hsc) as Hr.
  destruct (run_generation env' (Some p') samples) as [s r].
  split; [reflexivity|]. split; [reflexivity|]. split; [exact Hp|exact Hr].
Qed.

Lemma nullish_unit (o : option Q) d :
  (forall x, o = Some x -> (0 <= x <= 1)%Q) -> (0 <= d <= 1)%Q ->
  (0 <= nullish o d <= 1)%Q.
Proof. destruct o as [x|]; simpl; auto. Qed.

(** X9: for a row the [validate_voice_parameters] trigger accepts, every
    synthesize request of a run carries stability, similarity boost and
    style in [[0, 1]]. *)
Theorem accepted_row_sends_unit_settings (env : Env) (p : Project) (samples : list Sample)
  (Hvalid : validate_voice_parameters p = None) :
  let (s, r) := run_generation env (Some p) samples in
  forall v t st, In (EvTts v t st) (trace s) ->
    (0 <= stability st <= 1)%Q /\ (0 <= similarity_boost st <= 1)%Q
    /\ (0 <= style st <= 1)%Q.
Proof.
  unfold validate_voice_parameters in Hvalid.
  destruct (check_unit_param_None _ _ _ Hvalid) as (H1 & Hst).
  destruct (check_unit_param_None _ _ _ H1) as (H2 & Hsim).
  destruct (check_unit_param_None _ _ _ H2) as (_ & Hsty).
  pose proof (run_tts_settings env p samples) as Hs.
  destruct (run_generation env (Some p) samples) as [s r].
  intros v t st Hin. rewrite (Hs v t st Hin). unfold voice_settings_of; simpl.
  split; [|split]; apply nullish_unit; auto; unfold Qle; simpl; lia.
Qed.

Lemma accepted_row_sends_unit_settings_witness :
  validate_voice_parameters demo_project = None /\
  let (s, r) := run_generation demo_env (Some demo_project) demo_samples in
  forall v t st, In (EvTts v t st) (trace s) ->
    (0 <= stability st <= 1)%Q /\ (0 <= similarity_boost st <= 1)%Q
    /\ (0 <= style st <= 1)%Q.
Proof.
  split; [reflexivity|]. apply accepted_row_sends_unit_settings. reflexivity.
Defined.

(** X10: for a script the dialog accepts (non-blank after trimming, at
    most 10000 characters), the dialog's range check rejects exactly the
    values the trigger would reject in the row it writes: it shows
    "Invalid Parameters" iff the trigger raises, and submits iff the
    trigger accepts. *)
Theorem dialog_checks_match_trigger (now : Z) (scriptText : string)
  (stab sim sty : Q) (boost : bool) (p : Project)
  (Hs : String.eqb (trim scriptText) "" = false)
  (Hl : (Z.of_nat (String.length (trim scriptText)) <= 10000)%Z) :
  let row := dialog_update now (trim scriptText) (mkVoiceSettings stab sim sty boost) p in
  (handleGenerate_checks scriptText stab sim sty boost = GenToast "Invalid Parameters"
   <-> validate_voice_parameters row <> None)
  /\ (handleGenerate_checks scriptText stab sim sty boost
      = GenSubmit (trim scriptText) (mkVoiceSettings stab sim sty boost)
      <-> validate_voice_parameters row = None).
Proof.
  cbv zeta. unfold handleGenerate_checks, validate_voice_parameters, check_unit_param.
  simpl. rewrite Hs.
  assert (Hl' : (10000 <? Z.of_nat (String.length (trim scriptText)))%Z = false)
    by (apply Z.ltb_ge; exact Hl).
  rewrite Hl'.
  destruct (Qltb stab 0), (Qltb 1 stab), (Qltb sim 0), (Qltb 1 sim),
    (Qltb sty 0), (Qltb 1 sty); simpl;
    split; split; intros H; first [reflexivity | discriminate | congruence
                                   | exfalso; apply H; reflexivity].
Qed.

Lemma dialog_checks_match_trigger_witness :
  String.eqb (trim " Hello there ") "" = false
  /\ (Z.of_nat (String.length (trim " Hello there ")) <= 10000)%Z
  /\ let row := dialog_update 0%Z (trim " Hello there ")
                  (mkVoiceSettings (Qmake 3 2) (Qmake 3 4) (Qmake 0 1) true) demo_project in
  (handleGenerate_checks " Hello there " (Qmake 3 2) (Qmake 3 4) (Qmake 0 1) true
     = GenToast "Invalid Parameters"
   <-> validate_voice_parameters row <> None)
  /\ (handleGenerate_checks " Hello there " (Qmake 3 2) (Qmake 3 4) (Qmake 0 1) true
      = GenSubmit (trim " Hello there ") (mkVoiceSettings (Qmake 3 2) (Qmake 3 4) (Qmake 0 1) true)
      <-> validate_voice_parameters row = None).
Proof.
  split; [reflexivity|]. split; [vm_compute; discriminate|].
  apply dialog_checks_match_trigger; [reflexivity | vm_compute; discriminate].
Defined.



(** X11: when [handleSubmit] creates a project, the [clone-voice] run it
    starts on the fresh [draft] row finds no [voice_samples] and fails
    at once: the row is set to [failed] by its only write and the answer
    is 500 "No voice samples found for this project". *)
Theorem handleSubmit_first_run_fails (env : Env) (name script : string)
  (audioFileSize : option nat) (user uploadError insertError : option string)
  (newId : string) (Hid : newId <> "") :
  match handleSubmit env name script audioFileSize user uploadError insertError newId with
  | SubmitToast _ _ => True
  | SubmitCreated p (s, r) =>
      id p = newId /\ status p = draft
      /\ db s = Some (apply_update (now env) (upd_status failed) p)
      /\ trace s = [EvDbUpdate (upd_status failed)]
      /\ r = Failure 500 "No voice samples found for this project"
  end.
Proof.
  unfold handleSubmit.
  destruct (projectSchema_first_issue name script); [exact I|].
  destruct audioFileSize as [size|]; [|exact I].
  destruct (20 * 1024 * 1024 <? Z.of_nat size)%Z; [exact I|].
  destruct user as [userId|]; [|exact I].
  destruct uploadError; [exact I|]. destruct insertError; [exact I|].
  rewrite (run_no_samples_eq (with_body env (BodyJson (Some newId)))
             (inserted_project newId userId (trim script) (now env)) eq_refl Hid).
  repeat split; reflexivity.
Qed.

Lemma handleSubmit_first_run_fails_witness :
  "p9" <> "" /\
  match handleSubmit demo_env "Demo" "Hello there, this is me." (Some 4096) (Some "u1")
          None None "p9" with
  | SubmitToast _ _ => True
  | SubmitCreated p (s, r) =>
      id p = "p9" /\ status p = draft
      /\ db s = Some (apply_update (now demo_env) (upd_status failed) p)
      /\ trace s = [EvDbUpdate (upd_status failed)]
      /\ r = Failure 500 "No voice samples found for this project"
  end.
Proof.
  split; [discriminate|]. apply handleSubmit_first_run_fails. discriminate.
Defined.

(* ------------------------------------------------------------------ *)
(** ** What the sweeper leaves alone *)
Lemma NoDup_map_inj {A B} (f : A -> B) (l : list A) a b :
  NoDup (map f l) -> In a l -> In b l -> f a = f b -> a = b.
Proof.
  induction l as [|x l IH]; simpl; [intros _ []|].
  intros Hnd Ha Hb Hf. inversion Hnd as [|y ys Hnin Hnd']; subst.
  destruct Ha as [<-|Ha], Hb as [<-|Hb]; auto.
  - exfalso. apply Hnin. rewrite Hf. apply in_map, Hb.
  - exfalso. apply Hnin. rewrite <- Hf. apply in_map, Ha.
Qed.

Lemma cleanup_projects_spares env E R v :
  (forall pid v', In (pid, v') E -> pid <> id R /\ v' <> v) ->
  forall s c f s' c' f', cleanup_projects env E s c f = (s', c', f') ->
  In R (rows s) -> In R (rows s') /\ present v s' = present v s.
Proof.
  induction E as [|[pid v'] E IH]; intros HE s c f s' c' f' H HR; simpl in H.
  - injection H as <- <- <-. auto.
  - destruct (HE pid v' (or_introl eq_refl)) as [Hpid Hv].
    assert (HE' : forall pid0 v0, In (pid0, v0) E -> pid0 <> id R /\ v0 <> v)
      by (intros; apply HE; right; assumption).
    unfold delete_voice in H.
    assert (Hrm : present v (remove_voice v' s) = present v s).
    { rewrite present_remove. destruct (String.eqb_spec v v'); [congruence|].
      apply andb_true_r. }
    assert (Hcl : forall s0, In R (rows s0) -> In R (rows (clear_voice_id env pid s0))).
    { intros s0 H0. simpl. apply in_map_iff. exists R. split; [|exact H0].
      destruct (String.eqb_spec (id R) pid); [congruence|reflexivity]. }
    destruct (is_ok (del_resp env v' (present v' s))) eqn:Hok;
      [| destruct (is_404 (del_resp env v' (present v' s)))]; simpl in H;
      apply (IH HE') in H as [H1 H2].
    + split; [exact H1|]. rewrite H2, present_clear. exact Hrm.
    + exact (Hcl _ HR).
    + split; [exact H1|]. rewrite H2, present_clear. reflexivity.
    + exact (Hcl _ HR).
    + auto.
    + exact HR.
Qed.

Lemma cleanup_orphans_spares env V known v :
  existsb (String.eqb v) known = true ->
  forall s c s' c', cleanup_orphans env V known s c = (s', c') ->
  present v s' = present v s.
Proof.
  intros Hk. induction V as [|w V IH]; intros s c s' c' H; simpl in H.
  - congruence.
  - destruct (startsWith (name w) "Voice_" && negb (existsb (String.eqb (voice_id w)) known))
      eqn:Hc.
    + unfold delete_voice in H.
      destruct (is_ok (del_resp env (voice_id w) (present (voice_id w) s)));
        apply IH in H; rewrite H; [|reflexivity].
      rewrite present_remove.
      destruct (String.eqb_spec v (voice_id w)) as [Ew|Ew]; [|apply andb_true_r].
      rewrite <- Ew, Hk, andb_false_r in Hc. discriminate.
    + exact (IH _ _ _ _ H).
Qed.

(** X12: with project ids unique, a row holding voice [v] survives a
    sweep and [v] is not deleted from the account, as long as every row
    holding [v] is neither failed, completed, nor untouched for an hour
    (a generation in progress), and the second [voice_projects] query,
    whose error the sweeper does not read, succeeds. *)
Theorem sweep_spares_active_generation (env : SweepEnv) (st : SweepState) (R : Project)
  (v : string) (Hall : all_projects_error env = false)
  (Hkey : NoDup (map id (rows st))) (HR : In R (rows st))
  (Hv : elevenlabs_voice_id R = Some v)
  (Hactive : forall R', In R' (rows st) -> elevenlabs_voice_id R' = Some v ->
                        stale_or_finished env R' = false) :
  let (st', r) := sweep env st in
  In R (rows st') /\ present v st' = present v st.
Proof.
  unfold sweep.
  destruct (negb (truthy (api_key env))); [auto|].
  destruct (query_error env) as [m|]; [auto|].
  destruct (cleanup_projects env (project_entries env (rows st)) st 0 0)
    as [[sa ca] fa] eqn:Ha.
  assert (HE : forall pid v', In (pid, v') (project_entries env (rows st)) ->
                              pid <> id R /\ v' <> v).
  { intros pid v' Hin. apply project_entries_In in Hin as (R' & HR' & <- & Hv' & Hs).
    split.
    - intros Hid. pose proof (NoDup_map_inj id _ R' R Hkey HR' HR Hid) as ->.
      rewrite (Hactive R HR Hv) in Hs. discriminate.
    - intros ->. rewrite (Hactive R' HR' Hv') in Hs. discriminate. }
  destruct (cleanup_projects_spares env _ R v HE st 0 0 sa ca fa Ha HR) as [Ra Pa].
  destruct (list_ok env).
  - unfold knownVoiceIds. rewrite Hall.
    destruct (cleanup_orphans env (remote sa) (known_voice_ids (rows sa)) sa ca)
      as [sb cb] eqn:Hb.
    pose proof Hb as Hb'. apply cleanup_orphans_spec in Hb' as (Q1 & _).
    rewrite (cleanup_orphans_spares env _ _ v (known_voice_ids_In v _ R Ra Hv) _ _ _ _ Hb).
    rewrite Q1. auto.
  - auto.
Qed.

Lemma sweep_spares_active_generation_witness :
  all_projects_error sweep_demo_env = false
  /\ NoDup (map id (rows sweep_demo_state)) /\ In active_row (rows sweep_demo_state)
  /\ elevenlabs_voice_id active_row = Some "v1"
  /\ (forall R', In R' (rows sweep_demo_state) -> elevenlabs_voice_id R' = Some "v1" ->
                 stale_or_finished sweep_demo_env R' = false)
  /\ let (st', r) := sweep sweep_demo_env sweep_demo_state in
     In active_row (rows st') /\ present "v1" st' = present "v1" sweep_demo_state.
Proof.
  assert (Hnd : NoDup (map id (rows sweep_demo_state))).
  { simpl. constructor; [simpl; intros [H|[]]; discriminate|].
    constructor; [intros []|constructor]. }
  assert (Hin : In active_row (rows sweep_demo_state)) by (left; reflexivity).
  assert (Hact : forall R', In R' (rows sweep_demo_state) -> elevenlabs_voice_id R' = Some "v1" ->
                 stale_or_finished sweep_demo_env R' = false).
  { intros R' [<-|[<-|[]]] H; [reflexivity|discriminate]. }
  split; [reflexivity|].
  split; [exact Hnd|]. split; [exact Hin|]. split; [reflexivity|]. split; [exact Hact|].
  apply (sweep_spares_active_generation sweep_demo_env sweep_demo_state active_row "v1");
    [reflexivity | exact Hnd | exact Hin | reflexivity | exact Hact].
Defined.

(** Frame of the project loop. *)
Lemma clear_voice_id_frame env pid st :
  Forall2 (cleared_or_same (sweep_now env)) (rows st) (rows (clear_voice_id env pid st)).
Proof.
  simpl. induction (rows st) as [|r rs IH]; simpl; constructor; [|exact IH].
  destruct (String.eqb (id r) pid); [right|left]; reflexivity.
Qed.

Lemma cleared_or_same_trans now a b c :
  cleared_or_same now a b -> cleared_or_same now b c -> cleared_or_same now a c.
Proof.
  unfold cleared_or_same. intros [ -> | -> ] [ -> | -> ]; auto.
Qed.

Lemma Forall2_trans_co now l1 l2 l3 :
  Forall2 (cleared_or_same now) l1 l2 -> Forall2 (cleared_or_same now) l2 l3 ->
  Forall2 (cleared_or_same now) l1 l3.
Proof.
  intros H12. revert l3. induction H12 as [|a b l1 l2 Hab H12 IH]; intros l3 H23;
    inversion H23; subst; constructor; eauto using cleared_or_same_trans.
Qed.

Lemma Forall2_refl_co now l : Forall2 (cleared_or_same now) l l.
Proof. induction l; constructor; [left; reflexivity | assumption]. Qed.

Lemma cleanup_projects_frame env E :
  forall s c f s' c' f', cleanup_projects env E s c f = (s', c', f') ->
  Forall2 (cleared_or_same (sweep_now env)) (rows s) (rows s').
Proof.
  induction E as [|[pid v] E IH]; intros s c f s' c' f' H; simpl in H.
  - injection H as <- <- <-. apply Forall2_refl_co.
  - unfold delete_voice in H.
    destruct (is_ok (del_resp env v (present v s)));
      [| destruct (is_404 (del_resp env v (present v s)))]; simpl in H; apply IH in H.
    + exact (Forall2_trans_co _ _ _ _ (clear_voice_id_frame env pid (remove_voice v s)) H).
    + exact (Forall2_trans_co _ _ _ _ (clear_voice_id_frame env pid s) H).
    + exact H.
Qed.

(** X13: a sweep never inserts, deletes or reorders rows, and changes a
    row only by clearing its voice id (and the [updated_at] stamp); it
    never adds voices to the account. *)
Theorem sweep_only_clears_voice_ids (env : SweepEnv) (st : SweepState) :
  let (st', r) := sweep env st in
  Forall2 (fun row row' => row' = row
             \/ row' = apply_update (sweep_now env) (mkUpdate None (Some None) None) row)
          (rows st) (rows st')
  /\ incl (remote st') (remote st).
Proof.
  unfold sweep.
  destruct (negb (truthy (api_key env))); [split; [apply Forall2_refl_co | apply incl_refl]|].
  destruct (query_error env) as [m|]; [split; [apply Forall2_refl_co | apply incl_refl]|].
  destruct (cleanup_projects env (project_entries env (rows st)) st 0 0)
    as [[sa ca] fa] eqn:Ha.
  pose proof (cleanup_projects_frame env _ st 0 0 sa ca fa Ha) as Fa.
  apply cleanup_projects_spec in Ha as (_ & _ & _ & _ & P5).
  destruct (list_ok env).
  - destruct (cleanup_orphans env (remote sa) (knownVoiceIds env sa) sa ca)
      as [sb cb] eqn:Hb.
    apply cleanup_orphans_spec in Hb as (Q1 & _ & _ & _ & Q5).
    rewrite Q1. split; [exact Fa|]. intros w Hw. exact (P5 w (Q5 w Hw)).
  - split; [exact Fa|]. exact P5.
Qed.

(** X18: when the second [voice_projects] query fails, its error is not
    read and [knownVoiceIds] is empty, so the orphan pass treats every
    voice named [Voice_...] as an orphan, also the voice of a generation
    in progress: after such a sweep, every [Voice_] voice left in the
    account is one whose delete the provider does not answer with a 2xx
    status. *)
Theorem sweep_without_known_ids_deletes_prefixed (env : SweepEnv) (st : SweepState)
  (Hkey : truthy (api_key env) = true) (Hquery : query_error env = None)
  (Hlist : list_ok env = true) (Hall : all_projects_error env = true) :
  let (st', r) := sweep env st in
  forall w, In w (remote st') -> startsWith (name w) "Voice_" = true ->
  is_ok (del_resp env (voice_id w) true) = false.
Proof.
  unfold sweep. rewrite Hkey, Hquery, Hlist. cbn [negb].
  destruct (cleanup_projects env (project_entries env (rows st)) st 0 0)
    as [[sa ca] fa] eqn:Ha.
  unfold knownVoiceIds. rewrite Hall.
  destruct (cleanup_orphans env (remote sa) [] sa ca) as [sb cb] eqn:Hb.
  apply cleanup_orphans_spec in Hb as (_ & _ & _ & Q4 & Q5).
  intros w Hw Hn. apply (Q4 w (Q5 w Hw)).
  - rewrite Hn. reflexivity.
  - exact (present_In w sb Hw).
Qed.

Lemma sweep_without_known_ids_deletes_prefixed_witness :
  truthy (api_key sweep_no_known_env) = true /\ query_error sweep_no_known_env = None
  /\ list_ok sweep_no_known_env = true /\ all_projects_error sweep_no_known_env = true
  /\ fst (sweep sweep_no_known_env sweep_demo_state)
     = mkSweepState [active_row;
                     apply_update 7200000%Z (mkUpdate None (Some None) None) finished_row] []
  /\ let (st', r) := sweep sweep_no_known_env sweep_demo_state in
     forall w, In w (remote st') -> startsWith (name w) "Voice_" = true ->
     is_ok (del_resp sweep_no_known_env (voice_id w) true) = false.
Proof.
  split; [reflexivity|]. split; [reflexivity|]. split; [reflexivity|].
  split; [reflexivity|]. split; [vm_compute; reflexivity|].
  apply sweep_without_known_ids_deletes_prefixed; reflexivity.
Defined.

(* ------------------------------------------------------------------ *)
(** ** The first revision of [serve] *)
Ltac exec_v1 := cbv beta iota zeta delta [run_generation_v1 serve_body_v1 catch_handler_v1
  create_voice_attempt tts_attempt
  bind ret throw try_catch log db_update get_project get_samples_ordered
  add_events init_state err negb andb nullish db samples_db trace local_projectId local_voiceId].

Ltac simp_v1 := repeat progress (exec_v1; rw_truthy).

Ltac explore_v1 env p samples finish :=
  unfold run_generation_v1, try_catch, serve_body_v1;
  assert (Tn : truthy None = false) by reflexivity;
  destruct (request_body env) as [bm|bpid] eqn:Hb;
  [ simp_v1; finish | ];
  match goal with |- context [truthy bpid] => destruct (truthy bpid) eqn:Hbpid end;
  simp_v1; [ | finish ];
  destruct (order_by_clip samples) as [|x xs] eqn:Ho; simp_v1; [ finish | ];
  rewrite download_loop_eq; simp_v1; rewrite Nat.add_0_l, app_nil_l;
  match goal with |- context [survivor_indices ?e 0 ?l] =>
    destruct (survivor_indices e 0 l) as [|f fs] eqn:Hsv end;
  [ change (length [] =? 0) with true; simp_v1; finish | ];
  match goal with |- context [length (?a :: ?b) =? 0] =>
    change (length (a :: b) =? 0) with false end;
  simp_v1;
  destruct (create_voice_resp env 0) as [[w|]|code0 bm0|bm0] eqn:Hc; simp_v1;
  [ | finish | finish | finish ];
  match goal with |- context [truthy (Some ?w)] => destruct (truthy (Some w)) eqn:Hv end;
  simp_v1; [ | finish ];
  destruct (script_missing (script_text p)) eqn:Hsc; simp_v1; [ finish | ];
  destruct (tts_resp env 0) as [size|code1 bm1|bm1] eqn:Ht; simp_v1; [ | finish | finish ];
  match goal with |- context [?n =? 0] => destruct (n =? 0) eqn:Hz end;
  simp_v1; [ finish | ];
  destruct (upload_error env) as [m|] eqn:Hu; simp_v1; finish.

Ltac v1_quiet_finish :=
  split;
  [ intros u0 Hin0; in_cases Hin0; injection Hin0 as <-; reflexivity
  | intros c0 m0 Hr0 v0 Hin0; first [ discriminate Hr0 | in_cases Hin0 ] ].

(** X14: the first revision (lines 58-325) never stores a voice id in
    the row, and a failed run never deletes a voice, also one createVoice
    returned.  Its [generating] update (lines 168-171) writes the status
    only; its one [DELETE] request is the clean-up after the [completed]
    update (lines 244-261); and its [catch] block (lines 270-324) sends
    no provider request: its one write is [update({ status: 'failed' })]
    (lines 301-308), when the re-parsed [projectId] is set.  A failure
    that leaves no voice id, such as a 2xx creation answer whose
    [json()] rejects, deletes nothing either. *)
Theorem v1_never_records_nor_releases_voice (env : Env) (projectId : option string)
  (row : option Project) (samples : list Sample) :
  let (s, r) := run_generation_v1 env projectId row samples in
  (forall u, In (EvDbUpdate u) (trace s) -> set_voice_id u = None)
  /\ (forall c m, r = Failure c m -> forall v, ~ In (EvDeleteVoice v) (trace s)).
Proof.
  destruct row as [p|].
  - destruct (truthy projectId) eqn:Hcp; explore_v1 env p samples v1_quiet_finish.
  - unfold run_generation_v1, try_catch, serve_body_v1.
    assert (Tn : truthy None = false) by reflexivity.
    destruct (truthy projectId) eqn:Hcp;
    destruct (request_body env) as [bm|pid]; simp_v1;
    try (destruct (truthy pid) eqn:Hp; simp_v1); v1_quiet_finish.
Qed.

Ltac v1_status_finish :=
  intros c0 m0 Hr0;
  first [ discriminate Hr0
        | eexists; split; [reflexivity|]; simpl;
          split; intros Hx;
          first [ exfalso; congruence | reflexivity | left; reflexivity
                | right; left; reflexivity | right; right; reflexivity ] ].

(** X15: in the first revision, a failed run on an existing row ends with
    the row [failed] when the re-parsed project id is set; when the
    re-parse yields no id, the row keeps its status, or stays
    [analyzing] or [generating]. *)
Theorem v1_failure_leaves_row_processing (env : Env) (projectId : option string)
  (p : Project) (samples : list Sample)
  (HprojectId : projectId = None \/ request_body env = BodyJson projectId) :
  let (s, r) := run_generation_v1 env projectId (Some p) samples in
  forall c m, r = Failure c m ->
  exists p', db s = Some p'
    /\ (truthy projectId = true -> status p' = failed)
    /\ (truthy projectId = false ->
          status p' = status p \/ status p' = analyzing \/ status p' = generating).
Proof.
  destruct (truthy projectId) eqn:Hcp; explore_v1 env p samples v1_status_finish.
Qed.

Lemma v1_failure_leaves_row_processing_witness :
  (@None string = None \/ request_body rejecting_env = BodyJson None) /\
  let (s, r) := run_generation_v1 rejecting_env None (Some demo_project) demo_samples in
  forall c m, r = Failure c m ->
  exists p', db s = Some p'
    /\ (truthy None = true -> status p' = failed)
    /\ (truthy None = false ->
          status p' = status demo_project \/ status p' = analyzing \/ status p' = generating).
Proof.
  split; [left; reflexivity|].
  apply v1_failure_leaves_row_processing. left; reflexivity.
Defined.

(* ------------------------------------------------------------------ *)
(** ** The project card after a run *)
Ltac settle_finish :=
  first [ exfalso; congruence
        | eexists; split; [reflexivity|]; simpl;
          first [ left; split; [reflexivity|]; eexists; split; reflexivity
                | right; split; [reflexivity|]; eauto ] ].

(** A run on an existing row named by the request ends it [completed]
    with the returned audio URL, or [failed] with a failure answer. *)
Lemma run_settles env p samples
  (Hbody : request_body env = BodyJson (Some (id p))) (Hid : id p <> "") :
  let (s, r) := run_generation env (Some p) samples in
  exists p', db s = Some p'
    /\ ((status p' = completed /\ exists url, generated_audio_url p' = Some url /\ r = Success url)
        \/ (status p' = failed /\ exists c m, r = Failure c m)).
Proof.
  assert (Ht : truthy (Some (id p)) = true).
  { simpl. destruct (String.eqb_spec (id p) ""); [contradiction|reflexivity]. }
  explore env p samples settle_finish.
Qed.

(** X16: after a run of the current revision on an existing row named by
    the request, the card of the row shows no spinner, and it shows the
    audio player exactly when the run answered success with a non-empty
    audio URL. *)
Theorem run_generation_leaves_card_idle (env : Env) (p : Project) (samples : list Sample)
  (Hbody : request_body env = BodyJson (Some (id p))) (Hid : id p <> "") :
  let (s, r) := run_generation env (Some p) samples in
  exists p', db s = Some p'
    /\ isProcessing (status p') = false
    /\ (showsAudioPlayer p' = true <-> exists url, r = Success url /\ url <> "").
Proof.
  pose proof (run_settles env p samples Hbody Hid) as H.
  destruct (run_generation env (Some p) samples) as [s r].
  destruct H as (p' & Hdb & [(Hs & url & Hu & ->)|(Hs & c & m & ->)]);
    exists p'; split; [exact Hdb| |exact Hdb|];
    unfold showsAudioPlayer; rewrite Hs; split; try reflexivity.
  - rewrite Hu. simpl. split.
    + intros Hn. exists url. split; [reflexivity|].
      intros E. subst url. discriminate.
    + intros (url' & E & Hne). injection E as <-.
      destruct (String.eqb_spec url ""); [contradiction|reflexivity].
  - rewrite andb_false_r. split; [discriminate|].
    intros (url & E & _). discriminate.
Qed.

Lemma run_generation_leaves_card_idle_witness :
  request_body rejecting_env = BodyJson (Some (id demo_project)) /\ id demo_project <> "" /\
  let (s, r) := run_generation rejecting_env (Some demo_project) demo_samples in
  exists p', db s = Some p'
    /\ isProcessing (status p') = false
    /\ (showsAudioPlayer p' = true <-> exists url, r = Success url /\ url <> "").
Proof.
  split; [reflexivity|]. split; [discriminate|].
  apply run_generation_leaves_card_idle; [reflexivity|discriminate].
Defined.
